(** * humod.humodem: the modem port transactor, the prober and its threads

    A shallow embedding of [humod/humodem.py]: the [ModemPort] methods [send]
    and [return_data], [Interpreter.interpret], the [Prober] life cycle, the
    [Modem.connect] / [Modem.disconnect] guards, and a small-step model of one
    running prober (the [QueueFeeder] thread, the [Interpreter] thread and a
    caller executing [Prober.stop]). *)

From Stdlib Require Import String Ascii List Bool Arith Lia.
From Stdlib Require Import ZArith DecimalString.
Import ListNotations.
Open Scope string_scope.
Open Scope list_scope.

Module Humodem.

(** ** Python strings *)

Definition CR : string := String (ascii_of_nat 13) EmptyString.
Definition LF : string := String (ascii_of_nat 10) EmptyString.
Definition CRLF : string := CR ++ LF.

(** [c.isspace()] for an 8-bit [str]: tab, newline, vertical tab, form feed,
    carriage return and space. *)
Definition isspace (c : ascii) : bool :=
  let n := nat_of_ascii c in
  Nat.eqb n 32 || (Nat.leb 9 n && Nat.leb n 13).

(** [s.rstrip()]: [s] without its trailing white space. *)
Fixpoint rstrip (s : string) : string :=
  match s with
  | EmptyString => EmptyString
  | String c s' =>
      match rstrip s' with
      | EmptyString => if isspace c then EmptyString else String c EmptyString
      | r => String c r
      end
  end.

(** [s.startswith(p)]. *)
Definition startswith (s p : string) : bool := String.prefix p s.

(** [s[n:]]: empty once [n] reaches the length of [s]. *)
Fixpoint slice_from (n : nat) (s : string) : string :=
  match n, s with
  | O, _ => s
  | S _, EmptyString => EmptyString
  | S n', String _ s' => slice_from n' s'
  end.

(** Truth value of a string: every string but the empty one. *)
Definition str_truthy (s : string) : bool :=
  match s with
  | EmptyString => false
  | String _ _ => true
  end.

(** Truth value of an argument that is [None] or a string. *)
Definition truthy (o : option string) : bool :=
  match o with
  | None => false
  | Some s => str_truthy s
  end.

(** [needle in s]. *)
Definition contains (needle s : string) : bool :=
  match String.index 0 needle s with
  | Some _ => true
  | None => false
  end.

(** ** Exceptions and outcomes *)

Inductive exn : Type :=
| HumodUsageError (msg : string)        (* errors.HumodUsageError *)
| PppdError (msg : string)              (* errors.PppdError *)
| AttributeError (msg : string)         (* attribute access on None *)
| Exception (cls msg : string).         (* any other class, by name *)

(** How a call ends: it returns a value, it raises, or it never returns (a
    read that blocks for ever, or the process image replaced by [execv]). *)
Inductive outcome (A : Type) : Type :=
| Returns (a : A)
| Raises (e : exn)
| NoReturn.
Arguments Returns {A} a.
Arguments Raises {A} e.
Arguments NoReturn {A}.

(** ** The serial port

    [rx] holds what the successive calls of [readline] are going to return,
    oldest first: a full line with its terminator, or whatever had arrived when
    the port's timeout expired (the empty string when nothing had).  Past the
    end of [rx] nothing arrives any more: a port with a timeout then returns
    the empty string from every [readline], a port without one does not return
    from it.  [tx] is what was written, oldest first. *)
Record ModemPort : Type := mkPort {
  port : string;
  timeout : bool;
  is_open : bool;
  rx : list string;
  tx : list string
}.

Definition set_rx (p : ModemPort) (l : list string) : ModemPort :=
  mkPort (port p) (timeout p) (is_open p) l (tx p).

Definition set_tx (p : ModemPort) (l : list string) : ModemPort :=
  mkPort (port p) (timeout p) (is_open p) (rx p) l.

Definition set_open (p : ModemPort) (b : bool) : ModemPort :=
  mkPort (port p) (timeout p) b (rx p) (tx p).

Definition port_m (A : Type) : Type := ModemPort -> outcome A * ModemPort.

Definition ret {A} (a : A) : port_m A := fun p => (Returns a, p).

Definition raise {A} (e : exn) : port_m A := fun p => (Raises e, p).

Definition bind {A B} (m : port_m A) (k : A -> port_m B) : port_m B :=
  fun p =>
    match m p with
    | (Returns a, p') => k a p'
    | (Raises e, p') => (Raises e, p')
    | (NoReturn, p') => (NoReturn, p')
    end.

Notation "x <- m ;; k" := (bind m (fun x => k))
  (at level 61, m at next level, right associativity).
Notation "m ;; k" := (bind m (fun _ => k))
  (at level 61, right associativity).

Definition write (text : string) : port_m unit :=
  fun p => (Returns tt, set_tx p (tx p ++ [text])).

Definition readline : port_m string :=
  fun p =>
    match rx p with
    | l :: rest => (Returns l, set_rx p rest)
    | [] => if timeout p then (Returns "", p) else (NoReturn, p)
    end.

(** [serial.Serial.open]: it refuses a port that is open already. *)
Definition PORT_ALREADY_OPEN : exn :=
  Exception "SerialException" "Port is already open.".

Definition open : port_m unit :=
  fun p =>
    if is_open p
    then (Raises PORT_ALREADY_OPEN, p)
    else (Returns tt, set_open p true).

(** ** Module constants *)

Definition DEFAULT_DATA_PORT : string := "/dev/ttyUSB0".
Definition DEFAULT_CONTROL_PORT : string := "/dev/ttyUSB1".
Definition PPPD_PATH : string := "/usr/sbin/pppd".
(** [PROBER_TIMEOUT = 0.5] seconds and the feeder's [time.sleep(.1)], in
    milliseconds. *)
Definition PROBER_TIMEOUT_MS : nat := 500.
Definition FEEDER_IDLE_MS : nat := 100.

(** The ports as [Modem.__init__] creates them: the data port without a
    timeout and not yet open, the control port open with the prober's
    timeout. *)
Definition new_data_port (name : string) : ModemPort :=
  mkPort name false false [] [].

Definition new_ctrl_port (name : string) : ModemPort :=
  mkPort name true true [] [].

(** ** Events of one [interpret] call, system calls of [connect] and
    [disconnect], and what [Prober.start] and [Prober.stop] do, in order *)

Inductive syscall : Type :=
| Fork
| Execv (path : string) (args : list string)
| Kill (pid : nat) (signal : nat).

Inductive prober_event : Type :=
| FeederStarted
| InterpreterStarted
| InterpreterActive (b : bool)
| QueuePut (message : string)
| FeederActive (b : bool)
| CtrlWrite (text : string)
| FeederCleared.

(** The thread objects, as far as the prober touches them. *)
Record Interpreter : Type := mkInterpreter { i_active : bool }.
Record QueueFeeder : Type := mkQueueFeeder { f_active : bool }.

(** A [Prober] with what it shares with its modem: the queue, the control
    port's output, and the log of what it did. *)
Record Prober : Type := mkProber {
  p_queue : list string;
  _interpreter : option Interpreter;
  _feeder : option QueueFeeder;
  p_ctrl_tx : list string;
  p_log : list prober_event
}.

(** A [Modem], as far as [connect] and [disconnect] use it. *)
Record Modem : Type := mkModem {
  data_port : ModemPort;
  baudrate : string;
  settings : list string;
  _pppd_pid : option nat;
  _dial_num : string;
  m_syscalls : list syscall
}.

(** Truth value of [_pppd_pid]: [None] and [0] are false. *)
Definition pid_truthy (o : option nat) : bool :=
  match o with
  | Some (S _) => true
  | _ => false
  end.

(** ** One running prober, step by step *)

(** Where the feeder thread stands in [QueueFeeder.run]: the next thing it
    does. *)
Inductive feeder_pc : Type :=
| F_test                          (* while self.active *)
| F_acquire                       (* self.ctrl_lock.acquire() *)
| F_readline                      (* input_line = self.ctrl_port.readline() *)
| F_put (input_line : string)     (* self.queue.put(input_line) *)
| F_release                       (* finally: self.ctrl_lock.release() *)
| F_sleep                         (* time.sleep(.1) *)
| F_done.                         (* run returned *)

(** Where the interpreter thread stands in [Interpreter.run]. *)
Inductive interp_pc : Type :=
| I_test                          (* while self.active *)
| I_get                           (* self.queue.get() *)
| I_interpret (message : string)  (* self.interpret(message) *)
| I_done                          (* run returned *)
| I_raised (e : exn).             (* run left by an exception *)

(** Where the caller of [Prober.stop] stands. *)
Inductive stop_pc : Type :=
| P_idle                          (* stop() not called yet *)
| P_interp_flag                   (* self._interpreter.active = False *)
| P_interp_put                    (* self._interpreter.queue.put('') *)
| P_feeder_flag                   (* self._feeder.active = False *)
| P_feeder_write                  (* self.ctrl_port.write('\r\n') *)
| P_clear                         (* self._feeder = None *)
| P_stopped                       (* stop() returned *)
| P_raised (e : exn).             (* stop() raised *)

Inductive thread : Type := T_feeder | T_interp | T_stop.

Inductive producer : Type := ByFeeder | ByStop.

Section Model.

(** [errors.check_for_errors]: [Some e] when it raises [e] on the line,
    [None] when it returns. *)
Variable check_for_errors : string -> option exn.

(** Compiled patterns and actions of [actions.STANDARD_PATTERNS], and the
    state of the modem object the actions are handed.  [search p m] is the
    truth value of [p.search(m)]; [call a modem m] is [a(modem, m)]: the
    exception it raises, if any, and the modem afterwards;
    [no_match] is [actions.no_match]. *)
Variables Pattern Action ModemState : Type.
Variable search : Pattern -> string -> bool.
Variable call : Action -> ModemState -> string -> option exn * ModemState.
Variable no_match : Action.

(** *** ModemPort *)

Definition check (input_line : string) : port_m unit :=
  match check_for_errors input_line with
  | Some e => raise e
  | None => ret tt
  end.

(** The two branches below the terminator test in [return_data]: [data]
    after the line was looked at. *)
Definition retain (command : option string) (data : list string)
  (input_line : string) : list string :=
  match command with
  | Some (String _ _ as cmd) =>
      if startswith input_line cmd
      then data ++ [slice_from (String.length cmd + 2) input_line]
      else data
  | _ =>
      if str_truthy input_line then data ++ [input_line] else data
  end.

(** The [while 1] loop of [return_data], by recursion on the lines still to
    arrive; it hands back the outcome and the lines left unread.  Once
    nothing arrives any more the loop cannot see its terminator: on a port
    with a timeout it reads empty strings for ever (unless the classifier
    raises on the empty string), on a port without one it blocks. *)
Fixpoint return_data_loop (command : option string) (with_timeout : bool)
  (data : list string) (pending : list string)
  : outcome (list string) * list string :=
  match pending with
  | [] =>
      if with_timeout
      then match check_for_errors (rstrip "") with
           | Some e => (Raises e, [])
           | None => (NoReturn, [])
           end
      else (NoReturn, [])
  | raw :: rest =>
      let input_line := rstrip raw in
      match check_for_errors input_line with
      | Some e => (Raises e, rest)
      | None =>
          if input_line =? "OK" then (Returns data, rest)
          else return_data_loop command with_timeout
                 (retain command data input_line) rest
      end
  end.

Definition return_data (command : option string) : port_m (list string) :=
  fun p =>
    let (r, rest) := return_data_loop command (timeout p) [] (rx p) in
    (r, set_rx p rest).

(** [ModemPort.send]: the value is [Some data] when [wait] is set and [None]
    (Python's implicit [None]) when it is not. *)
Definition send (text : string) (wait : bool) (at_cmd : option string)
  : port_m (option (list string)) :=
  (if truthy at_cmd then write ("AT" ++ text ++ CR) else write text) ;;
  input_line <- readline ;;
  check input_line ;;
  if wait
  then data <- return_data at_cmd ;; ret (Some data)
  else ret None.

(** *** Interpreter.interpret *)

Inductive ievent : Type :=
| Searched (pattern : Pattern) (message : string)
| Called (action : Action) (modem : ModemState) (message : string).

(** The [for ... else] of [interpret]: what it searched and called, in
    order, the exception that left it, if any, and the modem afterwards. *)
Fixpoint interpret (patterns : list (Pattern * Action)) (modem : ModemState)
  (message : string) : list ievent * (option exn * ModemState) :=
  match patterns with
  | [] => ([Called no_match modem message], call no_match modem message)
  | (pattern, action) :: rest =>
      if search pattern message
      then ([Searched pattern message; Called action modem message],
            call action modem message)
      else
        let (evs, r) := interpret rest modem message in
        (Searched pattern message :: evs, r)
  end.

(** *** Prober *)

Definition _stop_interpreter (p : Prober) : outcome unit * Prober :=
  match _interpreter p with
  | None => (Raises (AttributeError "active"), p)
  | Some _ =>
      (Returns tt,
       mkProber (p_queue p ++ [""]) (Some (mkInterpreter false)) (_feeder p)
         (p_ctrl_tx p) (p_log p ++ [InterpreterActive false; QueuePut ""]))
  end.

Definition _start_interpreter (p : Prober) : outcome unit * Prober :=
  (Returns tt,
   mkProber (p_queue p) (Some (mkInterpreter true)) (_feeder p)
     (p_ctrl_tx p) (p_log p ++ [InterpreterStarted])).

(** [QueueFeeder.stop], on the prober's feeder. *)
Definition QueueFeeder_stop (p : Prober) : outcome unit * Prober :=
  match _feeder p with
  | None => (Raises (AttributeError "stop"), p)
  | Some _ =>
      (Returns tt,
       mkProber (p_queue p) (_interpreter p) (Some (mkQueueFeeder false))
         (p_ctrl_tx p ++ [CRLF])
         (p_log p ++ [FeederActive false; CtrlWrite CRLF]))
  end.

Definition Prober_start (p : Prober) : outcome unit * Prober :=
  match _feeder p with
  | Some _ => (Raises (HumodUsageError "Prober already started."), p)
  | None =>
      _start_interpreter
        (mkProber (p_queue p) (_interpreter p) (Some (mkQueueFeeder true))
           (p_ctrl_tx p) (p_log p ++ [FeederStarted]))
  end.

Definition Prober_stop (p : Prober) : outcome unit * Prober :=
  match _feeder p with
  | Some _ =>
      match _stop_interpreter p with
      | (Returns _, p1) =>
          match QueueFeeder_stop p1 with
          | (Returns _, p2) =>
              (Returns tt,
               mkProber (p_queue p2) (_interpreter p2) None (p_ctrl_tx p2)
                 (p_log p2 ++ [FeederCleared]))
          | r => r
          end
      | r => r
      end
  | None => (Raises (HumodUsageError "Prober not started."), p)
  end.

(** *** Modem *)

Definition set_data_port (m : Modem) (dp : ModemPort) : Modem :=
  mkModem dp (baudrate m) (settings m) (_pppd_pid m) (_dial_num m)
    (m_syscalls m).

(** [Modem.connect].  [fork_pid] is what [os.fork()] answers (the child's
    pid in the parent, [0] in the child); [execv_fails] tells whether
    [os.execv] raises in the child. *)
Definition connect (fork_pid : nat) (execv_fails : bool) (m : Modem)
  : outcome unit * Modem :=
  if negb (pid_truthy (_pppd_pid m)) then
    match (open ;;
           send ("ATZ" ++ CR) true None ;;
           send ("ATDT" ++ _dial_num m ++ CR) false None ;;
           readline) (data_port m) with
    | (Returns status, dp) =>
        if startswith status "CONNECT" then
          let pppd_args := [PPPD_PATH; baudrate m; port dp] ++ settings m in
          match fork_pid with
          | S _ =>
              (Returns tt,
               mkModem dp (baudrate m) (settings m) (Some fork_pid)
                 (_dial_num m) (m_syscalls m ++ [Fork]))
          | O =>
              (if execv_fails
               then Raises (PppdError "An error while starting pppd.")
               else NoReturn,
               mkModem dp (baudrate m) (settings m) (_pppd_pid m)
                 (_dial_num m)
                 (m_syscalls m ++ [Fork; Execv PPPD_PATH pppd_args]))
          end
        else (Returns tt, set_data_port m dp)
    | (Raises e, dp) => (Raises e, set_data_port m dp)
    | (NoReturn, dp) => (NoReturn, set_data_port m dp)
    end
  else (Raises (HumodUsageError "Modem is already connected."), m).

Definition disconnect (m : Modem) : outcome unit * Modem :=
  match _pppd_pid m with
  | Some (S _ as pid) =>
      (Returns tt,
       mkModem (data_port m) (baudrate m) (settings m) None (_dial_num m)
         (m_syscalls m ++ [Kill pid 15]))
  | _ => (Raises (HumodUsageError "Not connected."), m)
  end.

(** *** The threads of one started prober

    What [Prober.start] leaves behind: a feeder thread and an interpreter
    thread on the prober's queue, the control port and its lock, and a
    caller that may run [Prober.stop].  A step is one statement of one
    thread; [Queue.put] and [Queue.get] are atomic, [get] waits while the
    queue is empty and [acquire] while the lock is held. *)

Inductive event : Type :=
| Acquired
| Read (input_line : string)
| Put (who : producer) (message : string)
| Released
| Slept (ms : nat)
| Got (message : string)
| Dispatched (message : string) (did : list ievent) (raised : option exn)
| Stopping (what : prober_event).

Record Session : Type := mkSession {
  queue : list string;            (* Prober.queue *)
  ctrl_port : ModemPort;          (* Modem.ctrl_port *)
  ctrl_lock : bool;               (* Modem.ctrl_lock is held *)
  feeder_active : bool;           (* QueueFeeder.active *)
  feeder_at : feeder_pc;
  interp_active : bool;           (* Interpreter.active *)
  interp_at : interp_pc;
  feeder_set : bool;              (* Prober._feeder is not None *)
  stop_at : stop_pc;
  modem : ModemState;
  trace : list event
}.

Variable patterns : list (Pattern * Action).

(** The state [Prober.start] leaves: both threads at their loop test. *)
Definition started (q : list string) (p : ModemPort) (m : ModemState)
  : Session :=
  mkSession q p false true F_test true I_test true P_idle m [].

Definition feeder_step (s : Session) : option Session :=
  match feeder_at s with
  | F_test =>
      Some (mkSession (queue s) (ctrl_port s) (ctrl_lock s)
              (feeder_active s)
              (if feeder_active s then F_acquire else F_done)
              (interp_active s) (interp_at s) (feeder_set s) (stop_at s)
              (modem s) (trace s))
  | F_acquire =>
      if ctrl_lock s then None
      else
        Some (mkSession (queue s) (ctrl_port s) true
                (feeder_active s) F_readline
                (interp_active s) (interp_at s) (feeder_set s) (stop_at s)
                (modem s) (trace s ++ [Acquired]))
  | F_readline =>
      match readline (ctrl_port s) with
      | (Returns input_line, p') =>
          Some (mkSession (queue s) p' (ctrl_lock s)
                  (feeder_active s) (F_put input_line)
                  (interp_active s) (interp_at s) (feeder_set s) (stop_at s)
                  (modem s) (trace s ++ [Read input_line]))
      | _ => None
      end
  | F_put input_line =>
      Some (mkSession (queue s ++ [input_line]) (ctrl_port s) (ctrl_lock s)
              (feeder_active s) F_release
              (interp_active s) (interp_at s) (feeder_set s) (stop_at s)
              (modem s) (trace s ++ [Put ByFeeder input_line]))
  | F_release =>
      Some (mkSession (queue s) (ctrl_port s) false
              (feeder_active s) F_sleep
              (interp_active s) (interp_at s) (feeder_set s) (stop_at s)
              (modem s) (trace s ++ [Released]))
  | F_sleep =>
      Some (mkSession (queue s) (ctrl_port s) (ctrl_lock s)
              (feeder_active s) F_test
              (interp_active s) (interp_at s) (feeder_set s) (stop_at s)
              (modem s) (trace s ++ [Slept FEEDER_IDLE_MS]))
  | F_done => None
  end.

Definition interp_step (s : Session) : option Session :=
  match interp_at s with
  | I_test =>
      Some (mkSession (queue s) (ctrl_port s) (ctrl_lock s)
              (feeder_active s) (feeder_at s)
              (interp_active s)
              (if interp_active s then I_get else I_done)
              (feeder_set s) (stop_at s) (modem s) (trace s))
  | I_get =>
      match queue s with
      | [] => None
      | message :: q =>
          Some (mkSession q (ctrl_port s) (ctrl_lock s)
                  (feeder_active s) (feeder_at s)
                  (interp_active s) (I_interpret message)
                  (feeder_set s) (stop_at s) (modem s)
                  (trace s ++ [Got message]))
      end
  | I_interpret message =>
      let '(did, (raised, modem')) := interpret patterns (modem s) message in
      Some (mkSession (queue s) (ctrl_port s) (ctrl_lock s)
              (feeder_active s) (feeder_at s)
              (interp_active s)
              (match raised with
               | None => I_test
               | Some e => I_raised e
               end)
              (feeder_set s) (stop_at s) modem'
              (trace s ++ [Dispatched message did raised]))
  | I_done => None
  | I_raised _ => None
  end.

Definition stop_step (s : Session) : option Session :=
  match stop_at s with
  | P_idle =>
      Some (mkSession (queue s) (ctrl_port s) (ctrl_lock s)
              (feeder_active s) (feeder_at s)
              (interp_active s) (interp_at s) (feeder_set s)
              (if feeder_set s then P_interp_flag
               else P_raised (HumodUsageError "Prober not started."))
              (modem s) (trace s))
  | P_interp_flag =>
      Some (mkSession (queue s) (ctrl_port s) (ctrl_lock s)
              (feeder_active s) (feeder_at s)
              false (interp_at s) (feeder_set s) P_interp_put
              (modem s) (trace s ++ [Stopping (InterpreterActive false)]))
  | P_interp_put =>
      Some (mkSession (queue s ++ [""]) (ctrl_port s) (ctrl_lock s)
              (feeder_active s) (feeder_at s)
              (interp_active s) (interp_at s) (feeder_set s) P_feeder_flag
              (modem s) (trace s ++ [Put ByStop ""]))
  | P_feeder_flag =>
      Some (mkSession (queue s) (ctrl_port s) (ctrl_lock s)
              false (feeder_at s)
              (interp_active s) (interp_at s) (feeder_set s) P_feeder_write
              (modem s) (trace s ++ [Stopping (FeederActive false)]))
  | P_feeder_write =>
      Some (mkSession (queue s)
              (set_tx (ctrl_port s) (tx (ctrl_port s) ++ [CRLF]))
              (ctrl_lock s)
              (feeder_active s) (feeder_at s)
              (interp_active s) (interp_at s) (feeder_set s) P_clear
              (modem s) (trace s ++ [Stopping (CtrlWrite CRLF)]))
  | P_clear =>
      Some (mkSession (queue s) (ctrl_port s) (ctrl_lock s)
              (feeder_active s) (feeder_at s)
              (interp_active s) (interp_at s) false P_stopped
              (modem s) (trace s ++ [Stopping FeederCleared]))
  | P_stopped => None
  | P_raised _ => None
  end.

Definition step (t : thread) (s : Session) : option Session :=
  match t with
  | T_feeder => feeder_step s
  | T_interp => interp_step s
  | T_stop => stop_step s
  end.

(** A schedule: which thread makes each step.  [None] when the schedule
    asks a thread to step that cannot (it waits, or it has ended). *)
Fixpoint run (schedule : list thread) (s : Session) : option Session :=
  match schedule with
  | [] => Some s
  | t :: rest =>
      match step t s with
      | Some s' => run rest s'
      | None => None
      end
  end.

(** *** What a trace says *)

(** Messages put on the queue, oldest first, each with who put it. *)
Fixpoint puts (tr : list event) : list (producer * string) :=
  match tr with
  | [] => []
  | Put who message :: tr' => (who, message) :: puts tr'
  | _ :: tr' => puts tr'
  end.

(** Messages the feeder put on the queue, oldest first. *)
Fixpoint feeder_puts (tr : list event) : list string :=
  match tr with
  | [] => []
  | Put ByFeeder message :: tr' => message :: feeder_puts tr'
  | _ :: tr' => feeder_puts tr'
  end.

(** Messages the interpreter took off the queue, oldest first. *)
Fixpoint gets (tr : list event) : list string :=
  match tr with
  | [] => []
  | Got message :: tr' => message :: gets tr'
  | _ :: tr' => gets tr'
  end.

(** Messages [interpret] was run on, oldest first. *)
Fixpoint dispatched (tr : list event) : list string :=
  match tr with
  | [] => []
  | Dispatched message _ _ :: tr' => message :: dispatched tr'
  | _ :: tr' => dispatched tr'
  end.

(** The message taken off the queue and not yet interpreted. *)
Definition in_flight (s : Session) : list string :=
  match interp_at s with
  | I_interpret message => [message]
  | _ => []
  end.

(** The actions one [interpret] call invoked, in order. *)
Fixpoint calls (evs : list ievent) : list (Action * ModemState * string) :=
  match evs with
  | [] => []
  | Called a m message :: evs' => (a, m, message) :: calls evs'
  | Searched _ _ :: evs' => calls evs'
  end.

(** The patterns one [interpret] call searched, in order. *)
Fixpoint searches (evs : list ievent) : list Pattern :=
  match evs with
  | [] => []
  | Searched p _ :: evs' => p :: searches evs'
  | Called _ _ _ :: evs' => searches evs'
  end.

(** The feeder's own events. *)
Definition is_feeder_event (e : event) : bool :=
  match e with
  | Acquired | Read _ | Put ByFeeder _ | Released | Slept _ => true
  | _ => false
  end.

(** One full pass through the body of the feeder's loop on [input_line]. *)
Definition iteration (input_line : string) : list event :=
  [Acquired; Read input_line; Put ByFeeder input_line; Released;
   Slept FEEDER_IDLE_MS].

(** The feeder holds the lock between its [acquire] and its [release]. *)
Definition feeder_holds_lock (s : Session) : bool :=
  match feeder_at s with
  | F_readline | F_put _ | F_release => true
  | _ => false
  end.

(** *** Vocabulary of the statements *)

(** A response line that [return_data] reads past: its right-stripped form
    is no classified error and is not the terminator. *)
Definition passes (raw : string) : Prop :=
  check_for_errors (rstrip raw) = None /\ rstrip raw <> "OK".

(** What [send] writes for [text]. *)
Definition framed (at_cmd : option string) (text : string) : string :=
  if truthy at_cmd then "AT" ++ text ++ CR else text.

(** No rule before this point matches the message. *)
Definition none_match (rules : list (Pattern * Action)) (message : string)
  : Prop :=
  Forall (fun pa => search (fst pa) message = false) rules.

(** Everything that entered the queue, in order ([q0] was there at the
    start), is what was interpreted, then the message in flight, then what
    still waits. *)
Definition fifo (q0 : list string) (s : Session) : Prop :=
  dispatched (trace s) ++ in_flight s ++ queue s =
  q0 ++ map snd (puts (trace s)).

Definition from_feeder (x : producer * string) : bool :=
  match fst x with
  | ByFeeder => true
  | ByStop => false
  end.

(** [Prober.stop] has not reached its [put] yet. *)
Definition before_sentinel (pc : stop_pc) : bool :=
  match pc with
  | P_idle | P_interp_flag | P_interp_put | P_raised _ => true
  | _ => false
  end.

(** The feeder's events of the pass it is in, given where it stands. *)
Definition partial_iteration (pc : feeder_pc) (evs : list event) : Prop :=
  match pc with
  | F_test | F_acquire | F_done => evs = []
  | F_readline => evs = [Acquired]
  | F_put l => evs = [Acquired; Read l]
  | F_release => exists l, evs = [Acquired; Read l; Put ByFeeder l]
  | F_sleep => exists l, evs = [Acquired; Read l; Put ByFeeder l; Released]
  end.

(** The feeder's events are full passes through its loop body, then the
    pass it is in. *)
Definition feeder_shape (s : Session) : Prop :=
  exists lines evs,
    filter is_feeder_event (trace s) = concat (map iteration lines) ++ evs /\
    partial_iteration (feeder_at s) evs.

(** The interpreter thread has ended. *)
Definition interp_ended (s : Session) : Prop :=
  match interp_at s with
  | I_done | I_raised _ => True
  | _ => False
  end.

(** How many more messages an interpreter whose flag is cleared can still
    run [interpret] on. *)
Definition dispatches_left (s : Session) : nat :=
  match interp_at s with
  | I_get | I_interpret _ => 1
  | _ => 0
  end.

End Model.

Arguments Searched {Pattern Action ModemState}.
Arguments Called {Pattern Action ModemState}.
Arguments Acquired {Pattern Action ModemState}.
Arguments Read {Pattern Action ModemState}.
Arguments Put {Pattern Action ModemState}.
Arguments Released {Pattern Action ModemState}.
Arguments Slept {Pattern Action ModemState}.
Arguments Got {Pattern Action ModemState}.
Arguments Dispatched {Pattern Action ModemState}.
Arguments Stopping {Pattern Action ModemState}.
Arguments mkSession {Pattern Action ModemState}.
Arguments queue {Pattern Action ModemState}.
Arguments ctrl_port {Pattern Action ModemState}.
Arguments ctrl_lock {Pattern Action ModemState}.
Arguments feeder_active {Pattern Action ModemState}.
Arguments feeder_at {Pattern Action ModemState}.
Arguments interp_active {Pattern Action ModemState}.
Arguments interp_at {Pattern Action ModemState}.
Arguments feeder_set {Pattern Action ModemState}.
Arguments stop_at {Pattern Action ModemState}.
Arguments modem {Pattern Action ModemState}.
Arguments trace {Pattern Action ModemState}.
Arguments started {Pattern Action ModemState}.
Arguments feeder_step {Pattern Action ModemState}.
Arguments stop_step {Pattern Action ModemState}.
Arguments interp_step {Pattern Action ModemState}.
Arguments step {Pattern Action ModemState}.
Arguments run {Pattern Action ModemState}.
Arguments interpret {Pattern Action ModemState}.
Arguments puts {Pattern Action ModemState}.
Arguments feeder_puts {Pattern Action ModemState}.
Arguments gets {Pattern Action ModemState}.
Arguments dispatched {Pattern Action ModemState}.
Arguments in_flight {Pattern Action ModemState}.
Arguments calls {Pattern Action ModemState}.
Arguments searches {Pattern Action ModemState}.
Arguments is_feeder_event {Pattern Action ModemState}.
Arguments iteration {Pattern Action ModemState}.
Arguments feeder_holds_lock {Pattern Action ModemState}.
Arguments none_match {Pattern Action}.
Arguments fifo {Pattern Action ModemState}.
Arguments partial_iteration {Pattern Action ModemState}.
Arguments feeder_shape {Pattern Action ModemState}.
Arguments interp_ended {Pattern Action ModemState}.
Arguments dispatches_left {Pattern Action ModemState}.

(** ** ConnectionStatus *)

(** The values a status field holds: [None], an integer, or a string. *)
Inductive pyval : Type :=
| PyNone
| PyInt (z : Z)
| PyStr (s : string).

(** [str(v)]. *)
Definition py_str (v : pyval) : string :=
  match v with
  | PyNone => "None"
  | PyInt z => NilZero.string_of_int (Z.to_int z)
  | PyStr s => s
  end.

Fixpoint spaces (n : nat) : string :=
  match n with
  | O => EmptyString
  | S n' => String " " (spaces n')
  end.

(** ['%<width>s' % s]: [s] padded with spaces on the left up to [width]
    characters, and left as it is when it is longer. *)
Definition rjust (width : nat) (s : string) : string :=
  spaces (width - String.length s) ++ s.

Module ConnectionStatus.

Record t : Type := mk {
  x : pyval;
  y : pyval;
  rssi : pyval;
  uplink : pyval;
  downlink : pyval;
  bytes_tx : pyval;
  bytes_rx : pyval;
  link_uptime : pyval;
  mode : pyval
}.

(** [ConnectionStatus.__init__]. *)
Definition init : t :=
  mk (PyInt 0) (PyInt 0) (PyInt 0) (PyInt 0) (PyInt 0) (PyInt 0) (PyInt 0)
    (PyInt 0) PyNone.

(** ['%20s : %5s' % item]. *)
Definition format (item : string * pyval) : string :=
  rjust 20 (fst item) ++ " : " ++ rjust 5 (py_str (snd item)).

Definition mapping (self : t) : list (string * pyval) :=
  [("Signal Strength", rssi self);
   ("X", x self);
   ("Y", y self);
   ("Bytes rx", bytes_rx self);
   ("Bytes tx", bytes_tx self);
   ("Uplink (B/s)", uplink self);
   ("Downlink (B/s)", downlink self);
   ("Seconds uptime", link_uptime self);
   ("Mode", mode self)].

(** [ConnectionStatus.report]: the lines it prints, the empty line of the
    bare [print] first. *)
Definition report (self : t) : list string :=
  "" :: map format (mapping self).

End ConnectionStatus.

(** ** Sequences of calls on a prober *)

(** [Prober.__init__]: an empty queue, no threads. *)
Definition Prober_init : Prober := mkProber [] None None [] [].

Inductive prober_call : Type := CallStart | CallStop.

Definition prober_do (c : prober_call) (p : Prober) : outcome unit * Prober :=
  match c with
  | CallStart => Prober_start p
  | CallStop => Prober_stop p
  end.

(** A caller makes the calls one after the other, going on after a call that
    raised: the outcomes in order, and the prober at the end. *)
Fixpoint prober_calls (cs : list prober_call) (p : Prober)
  : list (outcome unit) * Prober :=
  match cs with
  | [] => ([], p)
  | c :: rest =>
      let (r, p1) := prober_do c p in
      let (rs, p2) := prober_calls rest p1 in
      (r :: rs, p2)
  end.

(** ** More vocabulary of the statements *)

(** The answer line of a modem to the command [cmd]: the command, a colon and
    a space, the payload, and the line terminator. *)
Definition answer (cmd payload : string) : string :=
  cmd ++ ": " ++ payload ++ CRLF.

(** A string [rstrip] leaves as it is: it does not end in white space. *)
Definition stripped (s : string) : Prop := rstrip s = s.

(** How many more lines a feeder whose flag is cleared can still put. *)
Definition feeder_puts_left {Pattern Action ModemState : Type}
  (s : Session Pattern Action ModemState) : nat :=
  match feeder_at s with
  | F_acquire | F_readline | F_put _ => 1
  | _ => 0
  end.

(** The record of one [interpret] call in the trace shows exactly one
    action, called on the message that was dispatched. *)
Definition one_action {Pattern Action ModemState : Type}
  (ev : event Pattern Action ModemState) : Prop :=
  match ev with
  | Dispatched message did _ =>
      exists a modem, calls did = [(a, modem, message)]
  | _ => True
  end.

(** A string of spaces only. *)
Definition blank (s : string) : Prop :=
  Forall (fun c => c = " "%char) (list_ascii_of_string s).

(** A call of [start] or [stop] ended as its code provides for: it returned
    or it raised the usage error. *)
Definition returned_or_usage_error (r : outcome unit) : Prop :=
  r = Returns tt \/ exists msg, r = Raises (HumodUsageError msg).

End Humodem.

Import Humodem.
Open Scope string_scope.
Open Scope list_scope.

(** ** A small instance, for the worked examples *)

(** Modelled from the spec: [errors.check_for_errors] is not among the
    sources.  Its vocabulary is "vendor-specific numeric/text error codes, NO
    CARRIER, etc.", and "+CME ERROR: 3" is one of its tokens; this stand-in
    raises on a line that contains ERROR or NO CARRIER. *)
Definition example_check_for_errors (input_line : string) : option exn :=
  if contains "ERROR" input_line || contains "NO CARRIER" input_line
  then Some (Exception "AtCommandError" input_line)
  else None.

(** A data port (no timeout) on which [lines] are about to arrive. *)
Definition example_port (lines : list string) : ModemPort :=
  mkPort DEFAULT_DATA_PORT false true lines [].

(** A control port (with the prober's timeout) on which [lines] are about to
    arrive. *)
Definition example_ctrl_port (lines : list string) : ModemPort :=
  mkPort DEFAULT_CONTROL_PORT true true lines [].

(** Patterns that match by substring, and four actions: three note their name
    and message on the modem, the last one raises. *)
Inductive example_action : Type := ActRing | ActRi | ActNoMatch | ActBoom.

Definition example_search (pattern message : string) : bool :=
  contains pattern message.

Definition example_call (a : example_action)
  (modem : list (example_action * string)) (message : string)
  : option exn * list (example_action * string) :=
  match a with
  | ActBoom => (Some (Exception "ValueError" message), modem)
  | _ => (None, modem ++ [(a, message)])
  end.

Definition example_patterns : list (string * example_action) :=
  [("RING", ActRing); ("RI", ActRi); ("BOOM", ActBoom)].

Definition example_session (q : list string) (lines : list string)
  : Session string example_action (list (example_action * string)) :=
  started q (example_ctrl_port lines) [].

Definition example_run := run example_search example_call ActNoMatch example_patterns.

(** The interpreter waits on the empty queue and the caller of [stop] is
    about to clear the interpreter's flag. *)
Definition example_waiting
  : Session string example_action (list (example_action * string)) :=
  mkSession [] (example_ctrl_port []) false true F_test true I_get true
    P_interp_flag [] [].

Definition example_prober : Prober := mkProber [] None None [] [].

(** The data port as [Modem.__init__] leaves it (no timeout, not open), on
    which [lines] are about to arrive once it is opened. *)
Definition example_closed_port (lines : list string) : ModemPort :=
  mkPort DEFAULT_DATA_PORT false false lines [].

Definition example_settings : list string :=
  ["modem"; "crtscts"; "defaultroute"; "usehostname"; "-detach";
   "noipdefault"; "call"; "humod"; "user"; "ppp"; "usepeerdns";
   "idle"; "0"; "logfd"; "8"].

(** A modem as [Modem.__init__] leaves it. *)
Definition example_modem : Modem :=
  mkModem (new_data_port DEFAULT_DATA_PORT) "7200000" example_settings
    None "*99#" [].

(** A modem as [Modem.__init__] leaves it, whose data port is going to
    deliver [lines]. *)
Definition example_dial_modem (lines : list string) : Modem :=
  mkModem (example_closed_port lines) "7200000" example_settings
    None "*99#" [].

(** * Properties *)

(** ** The transactor: [send] and [return_data] *)

Section TransactorProperties.

Variable check_for_errors : string -> option exn.

Local Abbreviation passes := (passes check_for_errors).
Local Abbreviation return_data_loop := (return_data_loop check_for_errors).
Local Abbreviation return_data := (return_data check_for_errors).
Local Abbreviation send := (send check_for_errors).

Lemma passes_not_terminator (raw : string) :
  passes raw -> (rstrip raw =? "OK") = false.
Proof.
  intros [_ Hne]. now apply String.eqb_neq.
Qed.

(** The loop reads past a run of passing lines, folding [retain] over their
    right-stripped forms. *)
Lemma return_data_loop_passes command tmo (body : list string) :
  Forall passes body ->
  forall data rest,
    return_data_loop command tmo data (body ++ rest) =
    return_data_loop command tmo
      (fold_left (retain command) (map rstrip body) data) rest.
Proof.
  induction 1 as [|raw body Hraw _ IH]; intros data rest; [reflexivity|].
  cbn [app map fold_left Humodem.return_data_loop].
  destruct Hraw as [Hchk Hne].
  rewrite Hchk.
  apply String.eqb_neq in Hne. rewrite Hne.
  apply IH.
Qed.

Lemma return_data_loop_error command tmo body l post e data :
  Forall passes body ->
  check_for_errors (rstrip l) = Some e ->
  return_data_loop command tmo data (body ++ l :: post) = (Raises e, post).
Proof.
  intros Hbody Hl.
  rewrite return_data_loop_passes by assumption.
  cbn [Humodem.return_data_loop]. now rewrite Hl.
Qed.

Lemma return_data_loop_terminator command tmo body l post data :
  Forall passes body ->
  check_for_errors (rstrip l) = None ->
  rstrip l = "OK" ->
  return_data_loop command tmo data (body ++ l :: post) =
  (Returns (fold_left (retain command) (map rstrip body) data), post).
Proof.
  intros Hbody Hl Hok.
  rewrite return_data_loop_passes by assumption.
  cbn [Humodem.return_data_loop]. rewrite Hl, Hok. reflexivity.
Qed.

(** Without a prefix the fold keeps the non-empty lines, in order. *)
Lemma fold_retain_no_prefix command (lines : list string) :
  truthy command = false ->
  forall data,
    fold_left (retain command) lines data = data ++ filter str_truthy lines.
Proof.
  intros Hcmd.
  induction lines as [|l lines IH]; intros data; cbn [fold_left filter].
  - now rewrite app_nil_r.
  - rewrite IH. unfold retain.
    destruct command as [[|c cmd]|]; try discriminate Hcmd;
      destruct (str_truthy l); cbn [app]; try reflexivity;
      now rewrite <- app_assoc.
Qed.

(** With a prefix the fold keeps the lines that start with it, each
    without its first [len(command) + 2] characters. *)
Lemma fold_retain_prefix (cmd : string) (lines : list string) :
  str_truthy cmd = true ->
  forall data,
    fold_left (retain (Some cmd)) lines data =
    data ++ map (slice_from (String.length cmd + 2))
              (filter (fun l => startswith l cmd) lines).
Proof.
  intros Hcmd.
  induction lines as [|l lines IH]; intros data; cbn [fold_left filter].
  - now rewrite app_nil_r.
  - rewrite IH. unfold retain.
    destruct cmd as [|c cmd]; try discriminate Hcmd.
    destruct (startswith l (String c cmd)); cbn [map app]; try reflexivity.
    now rewrite <- app_assoc.
Qed.

Lemma send_unfold text wait at_cmd p :
  send text wait at_cmd p =
  match readline (set_tx p (tx p ++ [framed at_cmd text])) with
  | (Returns input_line, p1) =>
      match check_for_errors input_line with
      | Some e => (Raises e, p1)
      | None =>
          if wait
          then match return_data at_cmd p1 with
               | (Returns data, p2) => (Returns (Some data), p2)
               | (Raises e, p2) => (Raises e, p2)
               | (NoReturn, p2) => (NoReturn, p2)
               end
          else (Returns None, p1)
      end
  | (Raises e, p1) => (Raises e, p1)
  | (NoReturn, p1) => (NoReturn, p1)
  end.
Proof.
  unfold Humodem.send, framed, bind, check.
  destruct (truthy at_cmd); cbn [write];
    match goal with
    | |- context [readline ?q] => destruct (readline q) as [[l| |] p1]
    end; try reflexivity;
    destruct (check_for_errors l); cbn [raise ret]; try reflexivity;
    destruct wait; try reflexivity;
    destruct (return_data at_cmd p1) as [[d| |] p2]; reflexivity.
Qed.

(** C1.  In a [send], the echoed line and then every right-stripped
    response line goes through the error classifier before it is compared
    with the terminator or considered for retention: as soon as one is
    classified, the call raises the classified error, the lines behind it
    stay unread, and the call hands back no data. *)
Theorem send_aborts_on_classified_error
  (text : string) (at_cmd : option string) (p : ModemPort)
  (echo : string) (resp : list string) (e : exn) :
  rx p = echo :: resp ->
  (check_for_errors echo = Some e ->
   forall wait,
     send text wait at_cmd p =
     (Raises e,
      mkPort (port p) (timeout p) (is_open p) resp
        (tx p ++ [framed at_cmd text])))
  /\
  (check_for_errors echo = None ->
   forall body l post,
     resp = body ++ l :: post ->
     Forall passes body ->
     check_for_errors (rstrip l) = Some e ->
     send text true at_cmd p =
     (Raises e,
      mkPort (port p) (timeout p) (is_open p) post
        (tx p ++ [framed at_cmd text]))).
Proof.
  intros Hrx. split.
  - intros Hecho wait.
    rewrite send_unfold. unfold readline, set_tx, set_rx; cbn.
    rewrite Hrx, Hecho. reflexivity.
  - intros Hecho body l post -> Hbody Hl.
    rewrite send_unfold. unfold readline, set_tx, set_rx; cbn.
    rewrite Hrx, Hecho.
    unfold Humodem.return_data; cbn.
    rewrite (return_data_loop_error _ _ body l post e) by assumption.
    reflexivity.
Qed.

(** X1.  With a non-empty prefix, [return_data] keeps the right-stripped
    lines that start with the prefix itself, whatever follows it, each
    without its first [len(command) + 2] characters; the terminator ends the
    call and the lines behind it stay unread. *)
Theorem return_data_prefix_filter
  (cmd : string) (p : ModemPort) (body : list string) (l : string)
  (post : list string) :
  str_truthy cmd = true ->
  rx p = body ++ l :: post ->
  Forall passes body ->
  check_for_errors (rstrip l) = None ->
  rstrip l = "OK" ->
  return_data (Some cmd) p =
  (Returns (map (slice_from (String.length cmd + 2))
              (filter (fun x => startswith x cmd) (map rstrip body))),
   set_rx p post).
Proof.
  intros Hcmd Hrx Hbody Hl Hok.
  unfold Humodem.return_data. rewrite Hrx.
  rewrite (return_data_loop_terminator _ _ body l post) by assumption.
  now rewrite fold_retain_prefix.
Qed.

(** C8, amended.  With no prefix (or an empty one), [return_data] returns
    the right-stripped forms of the lines before the terminator that are
    not empty once stripped, in order; the first line whose stripped form
    is the terminator is not kept and ends the call, and the lines behind
    it stay unread. *)
Theorem return_data_no_prefix
  (command : option string) (p : ModemPort) (body : list string)
  (l : string) (post : list string) :
  truthy command = false ->
  rx p = body ++ l :: post ->
  Forall passes body ->
  check_for_errors (rstrip l) = None ->
  rstrip l = "OK" ->
  return_data command p =
  (Returns (filter str_truthy (map rstrip body)),
   mkPort (port p) (timeout p) (is_open p) post (tx p)).
Proof.
  intros Hcmd Hrx Hbody Hl Hok.
  unfold Humodem.return_data. rewrite Hrx.
  rewrite (return_data_loop_terminator _ _ body l post) by assumption.
  now rewrite fold_retain_no_prefix.
Qed.

(** X3.  When every line that arrives passes (none is classified, none is
    the terminator), [return_data] never returns on a port without a
    timeout: it blocks on the read once the lines are used up.  On a port
    with a timeout it reads empty strings for ever, unless the classifier
    raises on the empty string. *)
Theorem return_data_without_terminator
  (command : option string) (p : ModemPort) :
  Forall passes (rx p) ->
  (timeout p = false \/ check_for_errors "" = None) ->
  return_data command p = (NoReturn, set_rx p []).
Proof.
  intros Hall Hend.
  unfold Humodem.return_data.
  rewrite <- (app_nil_r (rx p)) at 1.
  rewrite return_data_loop_passes by assumption.
  cbn [Humodem.return_data_loop rstrip].
  destruct (timeout p); [|reflexivity].
  destruct Hend as [Hend | Hend]; [discriminate | now rewrite Hend].
Qed.

(** C10.  With [wait] unset, [send] writes the payload (framed as an AT
    command when [at_cmd] is given), reads the one echoed line, raises the
    classified error when the classifier matches it, and otherwise returns
    [None]: it reads nothing behind the echo and builds no list. *)
Theorem send_without_wait
  (text : string) (at_cmd : option string) (p : ModemPort)
  (echo : string) (rest : list string) :
  rx p = echo :: rest ->
  send text false at_cmd p =
  (match check_for_errors echo with
   | Some e => Raises e
   | None => Returns None
   end,
   mkPort (port p) (timeout p) (is_open p) rest
     (tx p ++ [framed at_cmd text])).
Proof.
  intros Hrx.
  rewrite send_unfold. unfold readline, set_tx, set_rx; cbn.
  rewrite Hrx. destruct (check_for_errors echo); reflexivity.
Qed.

End TransactorProperties.

(** ** The interpreter's dispatch: [interpret] *)

Section InterpretProperties.

Variables Pattern Action ModemState : Type.
Variable search : Pattern -> string -> bool.
Variable call : Action -> ModemState -> string -> option exn * ModemState.
Variable no_match : Action.

Local Abbreviation interpret := (interpret search call no_match).
Local Abbreviation none_match := (none_match search).

(** Either no rule matches, or the rules split at the first one that
    does. *)
Lemma first_match_split (rules : list (Pattern * Action)) (message : string) :
  none_match rules message \/
  exists before p a after,
    rules = before ++ (p, a) :: after /\
    none_match before message /\
    search p message = true.
Proof.
  induction rules as [|[p a] rules IH].
  - left. constructor.
  - destruct (search p message) eqn:Hp.
    + right. exists [], p, a, rules. repeat split; [constructor | assumption].
    + destruct IH as [Hnone | (before & p' & a' & after & -> & Hb & Hp')].
      * left. constructor; assumption.
      * right. exists ((p, a) :: before), p', a', after.
        repeat split; [constructor; assumption | assumption].
Qed.

Lemma interpret_default rules modem message :
  none_match rules message ->
  interpret rules modem message =
  (map (fun pa => Searched (fst pa) message) rules
     ++ [Called no_match modem message],
   call no_match modem message).
Proof.
  induction 1 as [|[p a] rules Hp _ IH]; [reflexivity|].
  cbn [Humodem.interpret map app fst] in *.
  rewrite Hp, IH. reflexivity.
Qed.

Lemma interpret_first_match before p a after modem message :
  none_match before message ->
  search p message = true ->
  interpret (before ++ (p, a) :: after) modem message =
  (map (fun pa => Searched (fst pa) message) before
     ++ [Searched p message; Called a modem message],
   call a modem message).
Proof.
  induction 1 as [|[p' a'] before Hp' _ IH]; intros Hp.
  - cbn [Humodem.interpret map app]. now rewrite Hp.
  - cbn [Humodem.interpret map app fst] in *.
    rewrite Hp', IH by assumption. reflexivity.
Qed.

Lemma calls_searched_app (rules : list (Pattern * Action)) message
  (evs : list (ievent Pattern Action ModemState)) :
  calls (map (fun pa => Searched (fst pa) message) rules ++ evs) = calls evs.
Proof.
  induction rules as [|pa rules IH]; [reflexivity | exact IH].
Qed.

Lemma searches_searched_app (rules : list (Pattern * Action)) message
  (evs : list (ievent Pattern Action ModemState)) :
  searches (map (fun pa => Searched (fst pa) message) rules ++ evs) =
  map fst rules ++ searches evs.
Proof.
  induction rules as [|pa rules IH]; [reflexivity|].
  cbn [map app searches fst]. now rewrite IH.
Qed.

(** [interpret] invokes exactly one action, with the modem and the
    message, and its outcome is that action's. *)
Lemma interpret_one_call rules modem message :
  exists a,
    calls (fst (interpret rules modem message)) = [(a, modem, message)] /\
    snd (interpret rules modem message) = call a modem message.
Proof.
  destruct (first_match_split rules message)
    as [Hnone | (before & p & a & after & -> & Hb & Hp)].
  - exists no_match. rewrite interpret_default by assumption.
    cbn [fst snd]. now rewrite calls_searched_app.
  - exists a. rewrite interpret_first_match by assumption.
    cbn [fst snd]. now rewrite calls_searched_app.
Qed.

(** C3.  One [interpret] call fires exactly one action.  The rules are
    searched in list order; the first rule whose pattern matches has its
    action called with the modem and the message, and no rule behind it is
    searched; when no rule matches, every rule was searched and
    [actions.no_match] is called, once. *)
Theorem interpret_fires_exactly_one_action
  (rules : list (Pattern * Action)) (modem : ModemState) (message : string) :
  let did := fst (interpret rules modem message) in
  (exists before p a after,
      rules = before ++ (p, a) :: after /\
      none_match before message /\
      search p message = true /\
      calls did = [(a, modem, message)] /\
      searches did = map fst before ++ [p] /\
      snd (interpret rules modem message) = call a modem message)
  \/
  (none_match rules message /\
   calls did = [(no_match, modem, message)] /\
   searches did = map fst rules /\
   snd (interpret rules modem message) = call no_match modem message).
Proof.
  intros did; subst did.
  destruct (first_match_split rules message)
    as [Hnone | (before & p & a & after & -> & Hb & Hp)].
  - right. rewrite interpret_default by assumption. cbn [fst snd].
    rewrite calls_searched_app, searches_searched_app. cbn [searches calls].
    rewrite app_nil_r. repeat split; assumption.
  - left. exists before, p, a, after.
    rewrite interpret_first_match by assumption. cbn [fst snd].
    rewrite calls_searched_app, searches_searched_app.
    repeat split; assumption.
Qed.

End InterpretProperties.

(** ** The prober's life cycle and the modem's connection guards *)

Section LifeCycleProperties.

Variable check_for_errors : string -> option exn.

Local Abbreviation connect := (connect check_for_errors).

Lemma Prober_start_unset (p : Prober) :
  _feeder p = None ->
  Prober_start p =
  (Returns tt,
   mkProber (p_queue p) (Some (mkInterpreter true))
     (Some (mkQueueFeeder true)) (p_ctrl_tx p)
     (p_log p ++ [FeederStarted; InterpreterStarted])).
Proof.
  intros H. unfold Prober_start, _start_interpreter. rewrite H. cbn.
  now rewrite <- app_assoc.
Qed.

Lemma Prober_start_set (p : Prober) :
  _feeder p <> None ->
  Prober_start p = (Raises (HumodUsageError "Prober already started."), p).
Proof.
  intros H. unfold Prober_start. destruct (_feeder p); [reflexivity|].
  now contradiction H.
Qed.

Lemma Prober_start_returns (p p1 : Prober) :
  Prober_start p = (Returns tt, p1) ->
  _feeder p = None /\ _feeder p1 <> None /\ _interpreter p1 <> None.
Proof.
  destruct (_feeder p) eqn:Hf.
  - rewrite Prober_start_set by congruence. discriminate.
  - rewrite Prober_start_unset by assumption.
    intros [= <-]. cbn. repeat split; discriminate.
Qed.

Lemma Prober_stop_set (p : Prober) :
  _feeder p <> None ->
  _interpreter p <> None ->
  Prober_stop p =
  (Returns tt,
   mkProber (p_queue p ++ [""]) (Some (mkInterpreter false)) None
     (p_ctrl_tx p ++ [CRLF])
     (p_log p ++ [InterpreterActive false; QueuePut ""; FeederActive false;
                  CtrlWrite CRLF; FeederCleared])).
Proof.
  intros Hf Hi.
  unfold Prober_stop, _stop_interpreter, QueueFeeder_stop.
  destruct (_feeder p); [|now contradiction Hf].
  destruct (_interpreter p); [|now contradiction Hi].
  cbn. now rewrite <- !app_assoc.
Qed.

Lemma Prober_stop_unset (p : Prober) :
  _feeder p = None ->
  Prober_stop p = (Raises (HumodUsageError "Prober not started."), p).
Proof.
  intros H. unfold Prober_stop. now rewrite H.
Qed.

(** C6.  [Prober.start] on a started prober and [Prober.stop] on a prober
    that is not started raise [HumodUsageError] and change nothing.  After
    a [start] that returned, [stop] returns.  It stops the interpreter
    first: the interpreter's flag is cleared and the sentinel is on the
    queue while the feeder is still active and nothing has been written.
    Then it stops the feeder: the feeder's flag is cleared and the line
    terminator is written to the control port.  Then it clears [_feeder].
    The prober it leaves has the sentinel on its queue, the interpreter's
    flag cleared, the line terminator on the control port and no feeder; a
    second [stop] raises and a new [start] returns with both threads
    active.  [Modem.connect] with a pid recorded and [Modem.disconnect]
    with none raise [HumodUsageError] and change nothing. *)
Theorem usage_guards :
  (forall p, _feeder p <> None ->
     Prober_start p =
     (Raises (HumodUsageError "Prober already started."), p))
  /\
  (forall p, _feeder p = None ->
     Prober_stop p = (Raises (HumodUsageError "Prober not started."), p))
  /\
  (forall p p1, Prober_start p = (Returns tt, p1) ->
     Prober_start p1 =
     (Raises (HumodUsageError "Prober already started."), p1)
     /\
     exists pa pb p2,
       _stop_interpreter p1 = (Returns tt, pa) /\
       _interpreter pa = Some (mkInterpreter false) /\
       p_queue pa = p_queue p1 ++ [""] /\
       _feeder pa = Some (mkQueueFeeder true) /\
       p_ctrl_tx pa = p_ctrl_tx p1 /\
       QueueFeeder_stop pa = (Returns tt, pb) /\
       _feeder pb = Some (mkQueueFeeder false) /\
       p_ctrl_tx pb = p_ctrl_tx p1 ++ [CRLF] /\
       _interpreter pb = Some (mkInterpreter false) /\
       p_queue pb = p_queue p1 ++ [""] /\
       Prober_stop p1 = (Returns tt, p2) /\
       p2 =
       mkProber (p_queue p1 ++ [""]) (Some (mkInterpreter false)) None
         (p_ctrl_tx p1 ++ [CRLF])
         (p_log p1 ++ [InterpreterActive false; QueuePut "";
                       FeederActive false; CtrlWrite CRLF; FeederCleared]) /\
       p_log p2 =
       p_log p1 ++ [InterpreterActive false; QueuePut "";
                    FeederActive false; CtrlWrite CRLF; FeederCleared] /\
       _feeder p2 = None /\
       Prober_stop p2 =
       (Raises (HumodUsageError "Prober not started."), p2) /\
       exists p3,
         Prober_start p2 = (Returns tt, p3) /\
         _feeder p3 = Some (mkQueueFeeder true) /\
         _interpreter p3 = Some (mkInterpreter true) /\
         p_queue p3 = p_queue p2 /\
         p_ctrl_tx p3 = p_ctrl_tx p2)
  /\
  (forall fork_pid execv_fails m, pid_truthy (_pppd_pid m) = true ->
     connect fork_pid execv_fails m =
     (Raises (HumodUsageError "Modem is already connected."), m))
  /\
  (forall m, pid_truthy (_pppd_pid m) = false ->
     disconnect m = (Raises (HumodUsageError "Not connected."), m)).
Proof.
  split; [exact Prober_start_set|].
  split; [exact Prober_stop_unset|].
  split; [|split].
  - intros p p1 Hstart.
    destruct (Prober_start_returns _ _ Hstart) as (Hnone & Hf & Hi).
    split; [now apply Prober_start_set|].
    rewrite (Prober_start_unset p Hnone) in Hstart.
    injection Hstart as <-.
    eexists. eexists. eexists.
    split; [reflexivity|].
    do 4 (split; [reflexivity|]).
    split; [reflexivity|].
    do 4 (split; [reflexivity|]).
    split; [reflexivity|].
    split; [cbn; rewrite <- !app_assoc; reflexivity|].
    split; [cbn; rewrite <- !app_assoc; reflexivity|].
    split; [reflexivity|].
    split; [now apply Prober_stop_unset|].
    eexists. split; [now apply Prober_start_unset|].
    repeat split.
  - intros fork_pid execv_fails m H.
    unfold Humodem.connect. now rewrite H.
  - intros m H. unfold disconnect, pid_truthy in *.
    destruct (_pppd_pid m) as [[|n]|]; try reflexivity; discriminate.
Qed.

End LifeCycleProperties.

(** ** The threads of a started prober *)

Section SessionProperties.

Variables Pattern Action ModemState : Type.
Variable search : Pattern -> string -> bool.
Variable call : Action -> ModemState -> string -> option exn * ModemState.
Variable no_match : Action.
Variable patterns : list (Pattern * Action).

Local Abbreviation Session := (Session Pattern Action ModemState).
Local Abbreviation event := (event Pattern Action ModemState).
Local Abbreviation interpret := (interpret search call no_match).
Local Abbreviation step := (step search call no_match patterns).
Local Abbreviation run := (run search call no_match patterns).

(** *** Schedules *)

Lemma run_app (a b : list thread) (s : Session) :
  run (a ++ b) s =
  match run a s with
  | Some s' => run b s'
  | None => None
  end.
Proof.
  revert s. induction a as [|t a IH]; intros s; [reflexivity|].
  cbn [app Humodem.run]. destruct (step t s); [apply IH | reflexivity].
Qed.

(** A property that every step keeps holds along every schedule. *)
Lemma run_invariant (P : Session -> Prop) :
  (forall t s s', P s -> step t s = Some s' -> P s') ->
  forall schedule s s', P s -> run schedule s = Some s' -> P s'.
Proof.
  intros Hstep. induction schedule as [|t rest IH]; intros s s' HP Hrun.
  - injection Hrun as <-. exact HP.
  - cbn [Humodem.run] in Hrun. destruct (step t s) as [s1|] eqn:H1.
    + eapply IH; [eapply Hstep; eassumption | exact Hrun].
    + discriminate.
Qed.

(** Case analysis on one step: which thread, at which statement. *)
Ltac step_cases H :=
  unfold Humodem.step, feeder_step, interp_step, stop_step, readline in H;
  repeat match type of H with
    | context [match ?x with _ => _ end] => destruct x eqn:?
    end;
  try discriminate H;
  injection H as <-;
  cbn [queue ctrl_port ctrl_lock feeder_active feeder_at interp_active
       interp_at feeder_set stop_at modem trace] in *.

(** *** Traces *)

Lemma puts_app (a b : list event) : puts (a ++ b) = puts a ++ puts b.
Proof.
  induction a as [|[] a IH]; cbn [app puts]; try assumption;
    [reflexivity | now rewrite IH].
Qed.

Lemma feeder_puts_app (a b : list event) :
  feeder_puts (a ++ b) = feeder_puts a ++ feeder_puts b.
Proof.
  induction a as [|[| |[]| | | | |] a IH]; cbn [app feeder_puts];
    try assumption; [reflexivity | now rewrite IH].
Qed.

Lemma gets_app (a b : list event) : gets (a ++ b) = gets a ++ gets b.
Proof.
  induction a as [|[] a IH]; cbn [app gets]; try assumption;
    [reflexivity | now rewrite IH].
Qed.

Lemma dispatched_app (a b : list event) :
  dispatched (a ++ b) = dispatched a ++ dispatched b.
Proof.
  induction a as [|[] a IH]; cbn [app dispatched]; try assumption;
    [reflexivity | now rewrite IH].
Qed.

(** *** The queue is first in, first out *)

Lemma fifo_step q0 t (s s' : Session) :
  fifo q0 s -> step t s = Some s' -> fifo q0 s'.
Proof.
  unfold fifo, in_flight. intros Inv H.
  step_cases H;
    rewrite ?puts_app, ?dispatched_app, ?map_app, ?app_nil_r in *;
    cbn [puts dispatched map snd app] in *;
    rewrite ?app_nil_r in *;
    try exact Inv.
  all: try (rewrite <- Inv; now rewrite <- ?app_assoc).
  all: try (rewrite !app_assoc; f_equal; rewrite <- !app_assoc; exact Inv).
Qed.

Lemma fifo_started q0 port (m : ModemState) :
  fifo q0 (started q0 port m : Session).
Proof.
  unfold fifo, in_flight. cbn. now rewrite app_nil_r.
Qed.

(** What was taken off the queue is what was interpreted, then the message
    in flight. *)
Lemma gets_step t (s s' : Session) :
  gets (trace s) = dispatched (trace s) ++ in_flight s ->
  step t s = Some s' ->
  gets (trace s') = dispatched (trace s') ++ in_flight s'.
Proof.
  unfold in_flight. intros Inv H.
  step_cases H;
    rewrite ?gets_app, ?dispatched_app, ?app_nil_r in *;
    cbn [gets dispatched app] in *;
    rewrite ?app_nil_r in *;
    try exact Inv;
    now rewrite Inv.
Qed.

(** Until [Prober.stop] puts its sentinel, every message put is the
    feeder's. *)
Lemma only_feeder_step t (s s' : Session) :
  (before_sentinel (stop_at s) = true ->
   map snd (puts (trace s)) = feeder_puts (trace s)) ->
  step t s = Some s' ->
  before_sentinel (stop_at s') = true ->
  map snd (puts (trace s')) = feeder_puts (trace s').
Proof.
  intros Inv H.
  step_cases H;
    rewrite ?puts_app, ?feeder_puts_app, ?map_app, ?app_nil_r in *;
    cbn [puts feeder_puts map snd app before_sentinel] in *;
    rewrite ?app_nil_r in *;
    try discriminate;
    try exact Inv;
    try (intros Hb; now rewrite (Inv Hb));
    try (intros _; now apply Inv).
Qed.

Lemma feeder_puts_filter (tr : list event) :
  feeder_puts tr = map snd (filter from_feeder (puts tr)).
Proof.
  induction tr as [|[| |[] m| | | | |] tr IH];
    cbn [feeder_puts puts filter from_feeder fst map snd];
    try assumption; [reflexivity | now rewrite IH].
Qed.

(** C4.  Along every schedule of a started prober, the messages come off
    the queue and are interpreted in the order they were put: what was
    interpreted, then the message in flight, then the queue's content, is
    what the queue held at the start followed by every message put, in put
    order; the messages taken off the queue are the interpreted ones and
    the one in flight; and the feeder's own messages are those put by the
    feeder, in put order, which are all the messages put until
    [Prober.stop] adds its sentinel. *)
Theorem queue_is_fifo
  (q0 : list string) (port : ModemPort) (m : ModemState)
  (schedule : list thread) (s : Session) :
  run schedule (started q0 port m) = Some s ->
  dispatched (trace s) ++ in_flight s ++ queue s =
    q0 ++ map snd (puts (trace s))
  /\ gets (trace s) = dispatched (trace s) ++ in_flight s
  /\ feeder_puts (trace s) = map snd (filter from_feeder (puts (trace s)))
  /\ (before_sentinel (stop_at s) = true ->
      dispatched (trace s) ++ in_flight s ++ queue s =
        q0 ++ feeder_puts (trace s)).
Proof.
  intros Hrun.
  assert (Hfifo : fifo q0 s).
  { eapply (run_invariant (fifo q0)); [| apply fifo_started | exact Hrun].
    intros t s1 s2. apply fifo_step. }
  assert (Hgets : gets (trace s) = dispatched (trace s) ++ in_flight s).
  { eapply (run_invariant
              (fun s => gets (trace s) = dispatched (trace s) ++ in_flight s));
      [| | exact Hrun]; [intros t s1 s2; apply gets_step | reflexivity]. }
  assert (Honly : before_sentinel (stop_at s) = true ->
                  map snd (puts (trace s)) = feeder_puts (trace s)).
  { eapply (run_invariant
              (fun s => before_sentinel (stop_at s) = true ->
                        map snd (puts (trace s)) = feeder_puts (trace s)));
      [| | exact Hrun]; [intros t s1 s2; apply only_feeder_step | reflexivity]. }
  repeat split; try assumption.
  - apply feeder_puts_filter.
  - intros Hb. rewrite <- (Honly Hb). exact Hfifo.
Qed.

(** *** The lock and the feeder's loop *)

Lemma lock_step t (s s' : Session) :
  ctrl_lock s = feeder_holds_lock s ->
  step t s = Some s' ->
  ctrl_lock s' = feeder_holds_lock s'.
Proof.
  unfold feeder_holds_lock. intros Inv H.
  step_cases H; try reflexivity; try exact Inv;
    try (rewrite Inv; reflexivity).
  all: repeat match goal with
         | Hpc : feeder_at _ = _ |- _ => rewrite Hpc in *
         end; try exact Inv; try reflexivity.
Qed.

Lemma concat_iterations_snoc (lines : list string) (l : string) :
  concat (map (@iteration Pattern Action ModemState) (lines ++ [l])) =
  concat (map iteration lines) ++ iteration l.
Proof.
  rewrite map_app, concat_app. cbn [map concat]. now rewrite app_nil_r.
Qed.

Lemma feeder_shape_step t (s s' : Session) :
  feeder_shape s -> step t s = Some s' -> feeder_shape s'.
Proof.
  unfold feeder_shape. intros (lines & evs & Htr & Hpart) H.
  step_cases H;
    cbn [partial_iteration] in *;
    rewrite ?filter_app; cbn [filter is_feeder_event];
    rewrite ?app_nil_r;
    try (exists lines, evs; split; [exact Htr | assumption]);
    rewrite Htr.
  - (* acquire *)
    subst evs. exists lines, [Acquired]. split; [|reflexivity].
    now rewrite <- app_assoc.
  - (* readline *)
    subst evs. eexists lines, _. split; [|reflexivity].
    now rewrite <- app_assoc.
  - (* put *)
    subst evs. eexists lines, _. split; [|eexists; reflexivity].
    now rewrite <- app_assoc.
  - (* release *)
    destruct Hpart as [l ->]. eexists lines, _.
    split; [|eexists; reflexivity]. now rewrite <- app_assoc.
  - (* sleep *)
    destruct Hpart as [l ->]. exists (lines ++ [l]), [].
    split; [|reflexivity].
    rewrite concat_iterations_snoc, app_nil_r, <- app_assoc. reflexivity.
Qed.

(** A read on a port with a timeout returns, with the empty string when
    nothing arrives. *)
Lemma readline_timeout (p : ModemPort) :
  timeout p = true ->
  exists l p', readline p = (Returns l, p') /\ (rx p = [] -> l = "").
Proof.
  intros Ht. unfold readline. destruct (rx p) as [|l rest].
  - rewrite Ht. now exists "", p.
  - exists l, (set_rx p rest). split; [reflexivity | discriminate].
Qed.

(** With the lock free and its flag set, six steps of the feeder are one
    pass through its loop body. *)
Lemma feeder_pass (s : Session) (l : string) (p' : ModemPort) :
  ctrl_lock s = false ->
  feeder_at s = F_test ->
  feeder_active s = true ->
  readline (ctrl_port s) = (Returns l, p') ->
  run (repeat T_feeder 6) s =
  Some (mkSession (queue s ++ [l]) p' false true F_test
          (interp_active s) (interp_at s) (feeder_set s) (stop_at s)
          (modem s) (trace s ++ iteration l)).
Proof.
  intros Hlock Hpc Hact Hread.
  cbn [repeat Humodem.run Humodem.step].
  unfold feeder_step at 1. rewrite Hpc, Hact.
  unfold feeder_step at 1. cbn [feeder_at ctrl_lock]. rewrite Hlock.
  unfold feeder_step at 1. cbn [feeder_at ctrl_port]. rewrite Hread.
  cbn. rewrite <- !app_assoc. reflexivity.
Qed.

(** C7.  Along every schedule of a started prober: the lock is held
    exactly while the feeder stands between its [acquire] and its
    [release], so it is free whenever the feeder idles; the feeder's events
    are full passes (acquire, one read, put of the line read, release, idle
    for 100 ms) followed by the pass in progress; with the flag set a pass
    runs to its end, enqueues exactly the line read (the empty string of a
    timeout included) and idles with the lock released; with the flag
    cleared the feeder leaves without a pass. *)
Theorem feeder_pass_discipline
  (q0 : list string) (port : ModemPort) (m : ModemState)
  (schedule : list thread) (s : Session) :
  run schedule (started q0 port m) = Some s ->
  ctrl_lock s = feeder_holds_lock s
  /\ feeder_shape s
  /\ (feeder_at s = F_test -> feeder_active s = true ->
      forall l p', readline (ctrl_port s) = (Returns l, p') ->
      exists s',
        run (repeat T_feeder 6) s = Some s' /\
        queue s' = queue s ++ [l] /\
        trace s' = trace s ++ iteration l /\
        ctrl_lock s' = false /\
        feeder_at s' = F_test)
  /\ (feeder_at s = F_test -> feeder_active s = false ->
      exists s',
        step T_feeder s = Some s' /\
        feeder_at s' = F_done /\
        trace s' = trace s /\
        queue s' = queue s)
  /\ (timeout (ctrl_port s) = true ->
      exists l p',
        readline (ctrl_port s) = (Returns l, p') /\
        (rx (ctrl_port s) = [] -> l = "")).
Proof.
  intros Hrun.
  assert (Hlock : ctrl_lock s = feeder_holds_lock s).
  { eapply (run_invariant (fun s => ctrl_lock s = feeder_holds_lock s));
      [| | exact Hrun]; [intros t s1 s2; apply lock_step | reflexivity]. }
  assert (Hshape : feeder_shape s).
  { eapply (run_invariant feeder_shape); [| | exact Hrun].
    - intros t s1 s2. apply feeder_shape_step.
    - exists [], []. split; reflexivity. }
  repeat split; try assumption.
  - intros Hpc Hact l p' Hread.
    eexists. split.
    + apply feeder_pass; try eassumption.
      rewrite Hlock. unfold feeder_holds_lock. now rewrite Hpc.
    + repeat split.
  - intros Hpc Hact.
    eexists. split.
    + cbn [Humodem.step]. unfold feeder_step. rewrite Hpc, Hact. reflexivity.
    + repeat split.
  - apply readline_timeout.
Qed.

(** *** The interpreter's loop *)

Lemma trace_extends (schedule : list thread) (s s' : Session) :
  run schedule s = Some s' -> exists more, trace s' = trace s ++ more.
Proof.
  apply (run_invariant (fun s' => exists more, trace s' = trace s ++ more)).
  - intros t s1 s2 [more Hmore] H.
    step_cases H; rewrite ?Hmore, <- ?app_assoc; eauto.
  - exists []. now rewrite app_nil_r.
Qed.

(** Once the interpreter thread has ended it takes and interprets
    nothing. *)
Lemma interp_ended_final (s : Session) :
  interp_ended s ->
  forall schedule s',
    run schedule s = Some s' ->
    interp_at s' = interp_at s /\
    dispatched (trace s') = dispatched (trace s) /\
    gets (trace s') = gets (trace s).
Proof.
  intros Hend schedule s'.
  apply (run_invariant
           (fun s' => interp_at s' = interp_at s /\
                      dispatched (trace s') = dispatched (trace s) /\
                      gets (trace s') = gets (trace s)));
    [| repeat split].
  intros t s1 s2 (Hpc & Hd & Hg) H.
  unfold interp_ended in Hend. rewrite <- Hpc in Hend.
  step_cases H;
    rewrite ?dispatched_app, ?gets_app; cbn [dispatched gets];
    rewrite ?app_nil_r;
    try (repeat split; assumption);
    repeat match goal with
      | Hi : interp_at _ = _ |- _ => rewrite Hi in *
      end;
    contradiction.
Qed.

(** With its flag cleared the interpreter never gets it back, and it
    interprets at most the message it is about to take or has taken. *)
Lemma inactive_step t (s s' : Session) :
  interp_active s = false ->
  step t s = Some s' ->
  interp_active s' = false /\
  length (dispatched (trace s')) + dispatches_left s' <=
  length (dispatched (trace s)) + dispatches_left s.
Proof.
  unfold dispatches_left. intros Hflag H.
  step_cases H;
    rewrite ?dispatched_app, ?length_app; cbn [dispatched length];
    repeat match goal with
      | Hi : interp_at _ = _ |- _ => rewrite Hi in *
      end;
    try (split; [assumption || reflexivity | lia]);
    congruence.
Qed.

Lemma inactive_budget (s : Session) :
  interp_active s = false ->
  forall schedule s',
    run schedule s = Some s' ->
    interp_active s' = false /\
    length (dispatched (trace s')) + dispatches_left s' <=
    length (dispatched (trace s)) + dispatches_left s.
Proof.
  intros Hflag schedule s'.
  apply (run_invariant
           (fun s' => interp_active s' = false /\
                      length (dispatched (trace s')) + dispatches_left s' <=
                      length (dispatched (trace s)) + dispatches_left s));
    [| split; [assumption | lia]].
  intros t s1 s2 [Hf Hle] H.
  destruct (inactive_step t s1 s2 Hf H) as [Hf' Hle'].
  split; [assumption | lia].
Qed.

(** X2.  Left alone with its flag set, the interpreter takes the waiting
    messages off the queue and interprets them one after the other, in queue
    order, as long as no action raises. *)
Theorem interpreter_drains_queue (q : list string) :
  forall s : Session,
    queue s = q ->
    interp_at s = I_test ->
    interp_active s = true ->
    (forall message st,
       In message q -> fst (snd (interpret patterns st message)) = None) ->
    exists s',
      run (repeat T_interp (length q * 3)) s = Some s' /\
      dispatched (trace s') = dispatched (trace s) ++ q /\
      gets (trace s') = gets (trace s) ++ q /\
      queue s' = [] /\
      interp_at s' = I_test.
Proof.
  induction q as [|message q IH]; intros s Hq Hpc Hact Hok.
  - exists s. rewrite !app_nil_r. repeat split; assumption.
  - cbn [length Nat.mul Nat.add repeat Humodem.run Humodem.step].
    unfold interp_step at 1. rewrite Hpc, Hact.
    unfold interp_step at 1. cbn [interp_at queue]. rewrite Hq.
    unfold interp_step at 1. cbn [interp_at modem].
    pose proof (Hok message (modem s) (or_introl eq_refl)) as Hnone.
    destruct (interpret patterns (modem s) message) as [did [raised modem']].
    cbn [fst snd] in Hnone. subst raised.
    cbn [queue ctrl_port ctrl_lock feeder_active feeder_at interp_active
         interp_at feeder_set stop_at modem trace].
    match goal with
    | |- exists s', run _ ?s1 = _ /\ _ =>
        destruct (IH s1 eq_refl eq_refl eq_refl)
          as (s' & Hrun & Hd & Hg & Hq' & Hpc')
    end.
    { intros m st Hin. apply Hok. now right. }
    exists s'. split; [exact Hrun|].
    cbn [trace] in Hd, Hg.
    rewrite !dispatched_app in Hd. rewrite !gets_app in Hg.
    cbn [dispatched gets] in Hd, Hg.
    rewrite ?app_nil_r in Hd, Hg.
    rewrite Hd, Hg, <- !app_assoc.
    repeat split; assumption.
Qed.

(** Every state a started prober reaches keeps the queue first in, first
    out. *)
Lemma fifo_reached
  (q0 : list string) (port : ModemPort) (m : ModemState)
  (schedule : list thread) (s : Session) :
  run schedule (started q0 port m) = Some s -> fifo q0 s.
Proof.
  apply (run_invariant (fifo q0)); [|apply fifo_started].
  intros t s1 s2. apply fifo_step.
Qed.

(** Once the caller of [stop] stands before its [put], every later state
    in which it has left that statement has the sentinel among the messages
    put since. *)
Lemma sentinel_put_along (s : Session) :
  stop_at s = P_interp_put ->
  forall schedule s',
    run schedule s = Some s' ->
    exists ext,
      trace s' = trace s ++ ext /\
      (stop_at s' = P_interp_put \/ In (ByStop, "") (puts ext)).
Proof.
  intros Hpc schedule s'.
  apply (run_invariant
           (fun s' => exists ext,
                trace s' = trace s ++ ext /\
                (stop_at s' = P_interp_put \/ In (ByStop, "") (puts ext)))).
  - intros t s1 s2 (ext & Htr & Hin) H.
    step_cases H;
      (first [ exists ext; split; [exact Htr|]
             | eexists; split; [rewrite Htr, <- app_assoc; reflexivity|] ]);
      rewrite ?puts_app; cbn [puts]; rewrite ?app_nil_r;
      try exact Hin;
      try (destruct Hin as [Hin | Hin];
           [first [left; exact Hin | congruence]
           | right; try apply in_or_app; auto]).
    right. apply in_or_app. right. now left.
  - exists []. rewrite app_nil_r. split; [reflexivity | now left].
Qed.


(** C9, amended.  When the action [interpret] calls raises, nothing catches
    the exception: it leaves [interpret] and [run], the interpreter thread
    ends on that message, and whatever the other threads do afterwards it
    takes no further message off the queue and interprets none. *)
Theorem action_failure_ends_interpreter
  (s : Session) (message : string) (e : exn) :
  interp_at s = I_interpret message ->
  fst (snd (interpret patterns (modem s) message)) = Some e ->
  exists s1,
    step T_interp s = Some s1 /\
    interp_at s1 = I_raised e /\
    forall schedule s',
      run schedule s1 = Some s' ->
      interp_at s' = I_raised e /\
      dispatched (trace s') = dispatched (trace s) ++ [message] /\
      gets (trace s') = gets (trace s).
Proof.
  intros Hpc Hraise.
  cbn [Humodem.step]. unfold interp_step. rewrite Hpc.
  destruct (interpret patterns (modem s) message) as [did [raised modem']].
  cbn [fst snd] in Hraise. subst raised.
  eexists. split; [reflexivity|]. split; [reflexivity|].
  intros schedule s' Hrun.
  eapply interp_ended_final in Hrun; [|exact I].
  cbn [interp_at trace] in Hrun.
  rewrite dispatched_app, gets_app in Hrun. cbn [dispatched gets] in Hrun.
  now rewrite app_nil_r in Hrun.
Qed.

End SessionProperties.

(** ** Worked examples *)

(** The classified error of the small instance. *)
Lemma example_passes (raw : string) :
  example_check_for_errors (rstrip raw) = None ->
  (rstrip raw =? "OK") = false ->
  passes example_check_for_errors raw.
Proof.
  intros Hchk Hne. split; [exact Hchk | now apply String.eqb_neq].
Qed.

(** A classified error on the echo, and one behind a line already
    retained: both calls raise, leave the terminator unread and return
    nothing. *)
Lemma send_aborts_on_classified_error_witness :
  send example_check_for_errors "+CSQ" true (Some "+CSQ")
    (example_port ["+CME ERROR: 3"; "OK"]) =
  (Raises (Exception "AtCommandError" "+CME ERROR: 3"),
   mkPort DEFAULT_DATA_PORT false true ["OK"] [("AT+CSQ" ++ CR)%string])
  /\
  send example_check_for_errors "+CSQ" true (Some "+CSQ")
    (example_port [("AT+CSQ" ++ CRLF)%string; ("+CSQ: 5,99" ++ CRLF)%string;
                   ("+CME ERROR: 3" ++ CRLF)%string; ("OK" ++ CRLF)%string]) =
  (Raises (Exception "AtCommandError" "+CME ERROR: 3"),
   mkPort DEFAULT_DATA_PORT false true [("OK" ++ CRLF)%string] [("AT+CSQ" ++ CR)%string]).
Proof.
  split.
  - apply (proj1 (send_aborts_on_classified_error example_check_for_errors
                    "+CSQ" (Some "+CSQ")
                    (example_port ["+CME ERROR: 3"; "OK"])
                    "+CME ERROR: 3" ["OK"]
                    (Exception "AtCommandError" "+CME ERROR: 3") eq_refl)).
    reflexivity.
  - apply (proj2 (send_aborts_on_classified_error example_check_for_errors
                    "+CSQ" (Some "+CSQ")
                    (example_port [("AT+CSQ" ++ CRLF)%string; ("+CSQ: 5,99" ++ CRLF)%string;
                                   ("+CME ERROR: 3" ++ CRLF)%string; ("OK" ++ CRLF)%string])
                    ("AT+CSQ" ++ CRLF)%string
                    [("+CSQ: 5,99" ++ CRLF)%string; ("+CME ERROR: 3" ++ CRLF)%string;
                     ("OK" ++ CRLF)%string]
                    (Exception "AtCommandError" "+CME ERROR: 3") eq_refl)
             eq_refl [("+CSQ: 5,99" ++ CRLF)%string] ("+CME ERROR: 3" ++ CRLF)%string
             [("OK" ++ CRLF)%string]).
    + reflexivity.
    + repeat constructor; apply example_passes; reflexivity.
    + reflexivity.
Defined.

(** C2 (failing input).  A line that starts with the prefix but not with
    the prefix and its separator is kept, cut two characters past the
    prefix. *)
Lemma return_data_prefix_without_separator :
  return_data example_check_for_errors (Some "+CSQ")
    (example_port ["+CSQN: 1,2"; "OK"]) =
  (Returns [" 1,2"], example_port []).
Proof. reflexivity. Qed.

(** The prefix example: the answer to the command is kept without prefix
    and separator, the unrelated line is dropped. *)
Lemma return_data_prefix_example :
  return_data example_check_for_errors (Some "+CSQ")
    (example_port ["+CSQ: 5,99"; "garbage"; "OK"]) =
  (Returns ["5,99"], example_port []).
Proof.
  apply (return_data_prefix_filter example_check_for_errors "+CSQ"
           (example_port ["+CSQ: 5,99"; "garbage"; "OK"])
           ["+CSQ: 5,99"; "garbage"] "OK" []).
  - reflexivity.
  - reflexivity.
  - repeat constructor; apply example_passes; reflexivity.
  - reflexivity.
  - reflexivity.
Defined.

(** C8 (counterexample).  A non-empty line with trailing white space is
    not returned as it was read, and a line of white space only is
    dropped. *)
Lemma return_data_not_verbatim :
  fst (return_data example_check_for_errors None
         (example_port ["hello  "; "   "; "OK"])) = Returns ["hello"]
  /\
  fst (return_data example_check_for_errors None
         (example_port ["hello  "; "   "; "OK"])) <> Returns ["hello  "; "   "].
Proof. split; [reflexivity | discriminate]. Qed.

(** Without a prefix: the empty line is dropped, the others are kept. *)
Lemma return_data_no_prefix_witness :
  return_data example_check_for_errors None
    (example_port ["hello"; ""; "world"; "OK"]) =
  (Returns ["hello"; "world"], example_port []).
Proof.
  apply (return_data_no_prefix example_check_for_errors None
           (example_port ["hello"; ""; "world"; "OK"])
           ["hello"; ""; "world"] "OK" []).
  - reflexivity.
  - reflexivity.
  - repeat constructor; apply example_passes; reflexivity.
  - reflexivity.
  - reflexivity.
Defined.

(** A dial command sent without waiting: the echo is read, the answer
    behind it is left on the port. *)
Lemma send_without_wait_witness :
  send example_check_for_errors ("ATDT*99#" ++ CR)%string false None
    (example_port [("ATDT*99#" ++ CRLF)%string; ("CONNECT 7200000" ++ CRLF)%string]) =
  (Returns None,
   mkPort DEFAULT_DATA_PORT false true [("CONNECT 7200000" ++ CRLF)%string]
     [("ATDT*99#" ++ CR)%string]).
Proof.
  apply (send_without_wait example_check_for_errors ("ATDT*99#" ++ CR)%string None
           (example_port [("ATDT*99#" ++ CRLF)%string; ("CONNECT 7200000" ++ CRLF)%string])
           ("ATDT*99#" ++ CRLF)%string [("CONNECT 7200000" ++ CRLF)%string]).
  reflexivity.
Defined.

(** First match wins: on RING the first rule's action fires and the second
    rule, which matches too, is not searched; a message that no rule matches
    goes to the default action, once. *)
Theorem interpret_example :
  interpret example_search example_call ActNoMatch example_patterns [] "RING" =
  ([Searched "RING" "RING"; Called ActRing [] "RING"],
   (None, [(ActRing, "RING")]))
  /\
  interpret example_search example_call ActNoMatch example_patterns [] "^BOOT" =
  ([Searched "RING" "^BOOT"; Searched "RI" "^BOOT"; Searched "BOOM" "^BOOT";
    Called ActNoMatch [] "^BOOT"],
   (None, [(ActNoMatch, "^BOOT")])).
Proof. split; reflexivity. Qed.

(** A prober through start, start again, stop, stop again and a new start;
    a modem that dialled and one that did not. *)
Lemma usage_guards_witness :
  Prober_stop example_prober =
  (Raises (HumodUsageError "Prober not started."), example_prober)
  /\
  (exists p1 p2 p3,
     Prober_start example_prober = (Returns tt, p1) /\
     Prober_start p1 =
     (Raises (HumodUsageError "Prober already started."), p1) /\
     Prober_stop p1 = (Returns tt, p2) /\
     p2 =
     mkProber [""] (Some (mkInterpreter false)) None [CRLF]
       [FeederStarted; InterpreterStarted; InterpreterActive false;
        QueuePut ""; FeederActive false; CtrlWrite CRLF; FeederCleared] /\
     Prober_stop p2 = (Raises (HumodUsageError "Prober not started."), p2) /\
     Prober_start p2 = (Returns tt, p3) /\
     _feeder p3 = Some (mkQueueFeeder true))
  /\
  (exists m,
     connect example_check_for_errors 4242 false
       (example_dial_modem
          [("ATZ" ++ CRLF)%string; ("OK" ++ CRLF)%string;
           ("ATDT*99#" ++ CRLF)%string;
           ("CONNECT 7200000" ++ CRLF)%string]) = (Returns tt, m) /\
     _pppd_pid m = Some 4242 /\
     connect example_check_for_errors 4243 false m =
     (Raises (HumodUsageError "Modem is already connected."), m))
  /\
  disconnect example_modem =
  (Raises (HumodUsageError "Not connected."), example_modem).
Proof.
  destruct (usage_guards example_check_for_errors)
    as (Hstart & Hstop & Hcycle & Hconnect & Hdisconnect).
  split; [apply Hstop; reflexivity|].
  split.
  - destruct (Hcycle example_prober _ eq_refl)
      as (Hagain & pa & pb & p2 & _ & _ & _ & _ & _ & _ & _ & _ & _ & _
          & Hstop1 & Hp2 & _ & _ & Hstop2 & p3 & Hstart2 & Hf3 & _).
    eexists. exists p2, p3.
    split; [reflexivity|]. split; [exact Hagain|].
    split; [exact Hstop1|]. split; [exact Hp2|].
    split; [exact Hstop2|]. split; [exact Hstart2 | exact Hf3].
  - split; [|apply Hdisconnect; reflexivity].
    eexists. split; [vm_compute; reflexivity|].
    split; [reflexivity|].
    apply Hconnect. reflexivity.
Defined.

(** The feeder reads two lines and a timeout, the interpreter takes two
    messages, and the caller starts to stop the prober. *)
Lemma queue_is_fifo_witness :
  exists s,
    example_run
      (repeat T_feeder 12 ++ repeat T_interp 3 ++ repeat T_feeder 6
         ++ repeat T_interp 2 ++ repeat T_stop 3)
      (example_session [] ["RING"; "^BOOT:1"]) = Some s /\
    dispatched (trace s) = ["RING"] /\
    in_flight s = ["^BOOT:1"] /\
    queue s = [""; ""] /\
    feeder_puts (trace s) = ["RING"; "^BOOT:1"; ""] /\
    dispatched (trace s) ++ in_flight s ++ queue s =
    [] ++ map snd (puts (trace s)).
Proof.
  eexists. split; [vm_compute; reflexivity|].
  do 4 (split; [vm_compute; reflexivity|]).
  match goal with
  | |- dispatched (trace ?s) ++ _ = _ =>
      apply (queue_is_fifo _ _ _ example_search example_call ActNoMatch
               example_patterns [] (example_ctrl_port ["RING"; "^BOOT:1"]) []
               (repeat T_feeder 12 ++ repeat T_interp 3 ++ repeat T_feeder 6
                  ++ repeat T_interp 2 ++ repeat T_stop 3) s)
  end.
  vm_compute; reflexivity.
Defined.

(** After one pass on a line the feeder idles with the lock free, and on a
    silent port its next pass enqueues the empty string of the timeout. *)
Lemma feeder_pass_discipline_witness :
  exists s s',
    example_run (repeat T_feeder 5) (example_session [] ["RING"]) = Some s /\
    feeder_at s = F_sleep /\
    ctrl_lock s = false /\
    example_run (repeat T_feeder 6) (example_session [] ["RING"]) = Some s' /\
    ctrl_lock s' = feeder_holds_lock s' /\
    (exists s'',
       example_run (repeat T_feeder 6) s' = Some s'' /\
       queue s'' = queue s' ++ [""] /\
       trace s'' = trace s' ++ iteration "" /\
       ctrl_lock s'' = false /\
       feeder_at s'' = F_test).
Proof.
  eexists. eexists. split; [vm_compute; reflexivity|].
  split; [vm_compute; reflexivity|].
  split; [vm_compute; reflexivity|].
  split; [vm_compute; reflexivity|].
  match goal with
  | |- ctrl_lock ?s = _ /\ _ =>
      destruct (feeder_pass_discipline _ _ _ example_search example_call
                  ActNoMatch example_patterns []
                  (example_ctrl_port ["RING"]) [] (repeat T_feeder 6) s)
        as (Hlock & _ & Hpass & _); [vm_compute; reflexivity|]
  end.
  split; [exact Hlock|].
  apply (Hpass eq_refl eq_refl "" (example_ctrl_port [])).
  vm_compute; reflexivity.
Defined.



(** C9 (counterexample).  The action for the first message raises: the
    interpreter thread ends there, the next message stays on the queue, and
    no schedule makes the interpreter take or interpret it. *)
Lemma action_failure_stops_dispatch :
  exists s,
    example_run (repeat T_interp 3) (example_session ["BOOM"; "RING"] []) =
    Some s /\
    interp_at s = I_raised (Exception "ValueError" "BOOM") /\
    queue s = ["RING"] /\
    step example_search example_call ActNoMatch example_patterns T_interp s =
    None /\
    forall schedule s',
      example_run schedule s = Some s' ->
      dispatched (trace s') = ["BOOM"] /\ gets (trace s') = ["BOOM"].
Proof.
  eexists. split; [vm_compute; reflexivity|].
  do 3 (split; [vm_compute; reflexivity|]).
  intros schedule s' Hrun.
  apply interp_ended_final in Hrun; [|exact I].
  destruct Hrun as (_ & Hd & Hg). rewrite Hd, Hg. split; reflexivity.
Qed.

(** The raising action of the small instance, from the state in which its
    message has been taken off the queue. *)
Lemma action_failure_ends_interpreter_witness :
  exists s s1,
    example_run [T_interp; T_interp] (example_session ["BOOM"; "RING"] []) =
    Some s /\
    step example_search example_call ActNoMatch example_patterns T_interp s =
    Some s1 /\
    interp_at s1 = I_raised (Exception "ValueError" "BOOM") /\
    forall schedule s',
      example_run schedule s1 = Some s' ->
      interp_at s' = I_raised (Exception "ValueError" "BOOM") /\
      dispatched (trace s') = dispatched (trace s) ++ ["BOOM"] /\
      gets (trace s') = gets (trace s).
Proof.
  eexists.
  match goal with
  | |- exists s1, ?R = Some ?s /\ _ =>
      assert (Hrun : R = Some s) by (vm_compute; reflexivity);
      destruct (action_failure_ends_interpreter _ _ _ example_search
                  example_call ActNoMatch example_patterns s "BOOM"
                  (Exception "ValueError" "BOOM") eq_refl eq_refl)
        as (s1 & Hstep & Hpc & Hfinal)
  end.
  exists s1.
  split; [exact Hrun|]. split; [exact Hstep|]. split; [exact Hpc|].
  exact Hfinal.
Defined.

(** Two lines and no terminator on a port without a timeout: the call
    blocks with both lines read. *)
Lemma return_data_without_terminator_witness :
  return_data example_check_for_errors (Some "+CSQ")
    (example_port ["+CSQ: 5,99"; "garbage"]) =
  (NoReturn, example_port []).
Proof.
  apply (return_data_without_terminator example_check_for_errors
           (Some "+CSQ") (example_port ["+CSQ: 5,99"; "garbage"])).
  - repeat constructor; apply example_passes; reflexivity.
  - left. reflexivity.
Defined.

(** Three waiting messages, none of which reaches the raising action. *)
Lemma interpreter_drains_queue_witness :
  exists s',
    example_run (repeat T_interp 9)
      (example_session ["RING"; "^BOOT:1"; "RI"] []) = Some s' /\
    dispatched (trace s') = [] ++ ["RING"; "^BOOT:1"; "RI"] /\
    gets (trace s') = [] ++ ["RING"; "^BOOT:1"; "RI"] /\
    queue s' = [] /\
    interp_at s' = I_test.
Proof.
  apply (interpreter_drains_queue _ _ _ example_search example_call
           ActNoMatch example_patterns ["RING"; "^BOOT:1"; "RI"]
           (example_session ["RING"; "^BOOT:1"; "RI"] [])
           eq_refl eq_refl eq_refl).
  intros message st [<- | [<- | [<- | []]]]; reflexivity.
Defined.

(** * Further properties *)

(** ** Right-stripped strings *)

Open Scope string_scope.

Lemma rstrip_idempotent (s : string) : rstrip (rstrip s) = rstrip s.
Proof.
  induction s as [|c s IH]; [reflexivity|].
  cbn [rstrip]. destruct (rstrip s) as [|c' r] eqn:Hr.
  - destruct (isspace c) eqn:Hc; [reflexivity|].
    cbn [rstrip]. now rewrite Hc.
  - cbn [rstrip] in *. rewrite IH. reflexivity.
Qed.

Lemma stripped_tail (c : ascii) (s : string) :
  stripped (String c s) -> stripped s.
Proof.
  unfold stripped. cbn [rstrip].
  destruct (rstrip s) as [|c' r] eqn:Hr.
  - destruct (isspace c); [discriminate|]. now intros [= <-].
  - now intros [= <-].
Qed.

Lemma stripped_slice_from (n : nat) (s : string) :
  stripped s -> stripped (slice_from n s).
Proof.
  revert s. induction n as [|n IH]; intros s Hs; [exact Hs|].
  destruct s as [|c s]; [exact Hs|].
  cbn [slice_from]. apply IH. eapply stripped_tail. exact Hs.
Qed.

Lemma rstrip_app (a b : string) :
  rstrip (a ++ b) =
  match rstrip b with
  | EmptyString => rstrip a
  | String _ _ => a ++ rstrip b
  end.
Proof.
  induction a as [|c a IH].
  - cbn [append rstrip]. now destruct (rstrip b).
  - cbn [append rstrip]. rewrite IH.
    destruct (rstrip b) as [|c' r]; [reflexivity|].
    destruct a; reflexivity.
Qed.

Lemma startswith_app (cmd rest : string) : startswith (cmd ++ rest) cmd = true.
Proof.
  unfold startswith.
  induction cmd as [|c cmd IH]; cbn [append prefix].
  - now destruct rest.
  - destruct (ascii_dec c c) as [_|Hne]; [exact IH | now contradiction Hne].
Qed.

Lemma slice_from_app (a b : string) : slice_from (String.length a) (a ++ b) = b.
Proof.
  induction a as [|c a IH]; [reflexivity | exact IH].
Qed.

Lemma slice_from_past (n : nat) (s : string) :
  String.length s <= n -> slice_from n s = "".
Proof.
  revert s. induction n as [|n IH]; intros [|c s] Hle; cbn in *;
    try reflexivity; try lia.
  apply IH. lia.
Qed.

Lemma length_append (a b : string) :
  String.length (a ++ b) = String.length a + String.length b.
Proof.
  induction a as [|c a IH]; cbn [append String.length]; [reflexivity|].
  now rewrite IH.
Qed.

(** What [return_data] keeps of a well-formed answer line is its payload,
    right-stripped. *)
Lemma retain_answer (cmd payload : string) (data : list string) :
  str_truthy cmd = true ->
  retain (Some cmd) data (rstrip (answer cmd payload)) =
  (data ++ [rstrip payload])%list.
Proof.
  intros Hcmd. unfold answer.
  assert (Hline :
    rstrip (cmd ++ ": " ++ payload ++ CRLF) =
    match rstrip payload with
    | EmptyString => cmd ++ ":"
    | String _ _ => cmd ++ ": " ++ rstrip payload
    end).
  { rewrite rstrip_app.
    replace (rstrip (": " ++ payload ++ CRLF))
      with (match rstrip payload with
            | EmptyString => ":"
            | String _ _ => ": " ++ rstrip payload
            end).
    - destruct (rstrip payload); reflexivity.
    - change (": " ++ payload ++ CRLF) with (": " ++ (payload ++ CRLF)).
      rewrite (rstrip_app ": " (payload ++ CRLF)), (rstrip_app payload CRLF).
      change (rstrip CRLF) with "".
      destruct (rstrip payload); reflexivity. }
  rewrite Hline. unfold retain.
  destruct cmd as [|c cmd]; [discriminate|].
  destruct (rstrip payload) as [|c' r].
  - rewrite startswith_app.
    rewrite slice_from_past; [reflexivity|].
    rewrite length_append. cbn. lia.
  - rewrite startswith_app.
    replace (String.length (String c cmd) + 2)
      with (String.length (String c cmd ++ ": ")) by (rewrite length_append; reflexivity).
    replace (String c cmd ++ ": " ++ String c' r)
      with ((String c cmd ++ ": ") ++ String c' r).
    + now rewrite slice_from_app.
    + clear. induction (String c cmd) as [|a s IH]; [reflexivity|].
      cbn [append]. now rewrite IH.
Qed.

Open Scope list_scope.

(** ** More on the transactor *)

Section TransactorFurther.

Variable check_for_errors : string -> option exn.

Local Abbreviation passes := (passes check_for_errors).
Local Abbreviation return_data_loop := (return_data_loop check_for_errors).
Local Abbreviation return_data := (return_data check_for_errors).
Local Abbreviation send := (send check_for_errors).

Lemma retain_stripped command (data : list string) (raw : string) :
  Forall stripped data ->
  Forall stripped (retain command data (rstrip raw)).
Proof.
  intros Hdata.
  assert (Hline : stripped (rstrip raw)) by apply rstrip_idempotent.
  unfold retain.
  destruct command as [[|c cmd]|];
    repeat match goal with
      | |- context [if ?b then _ else _] => destruct b
      end;
    try assumption;
    apply Forall_app; split; try assumption;
    constructor; try constructor; try assumption.
  now apply stripped_slice_from.
Qed.

Lemma retain_non_empty command (data : list string) (line : string) :
  truthy command = false ->
  Forall (fun x => x <> "") data ->
  Forall (fun x => x <> "") (retain command data line).
Proof.
  intros Hcmd Hdata. unfold retain.
  destruct command as [[|c cmd]|]; try discriminate Hcmd;
    destruct line; cbn [str_truthy]; try assumption;
    apply Forall_app; split; try assumption;
    constructor; try constructor; discriminate.
Qed.

Lemma return_data_loop_keeps (P : list string -> Prop) command tmo :
  (forall data raw, P data -> P (retain command data (rstrip raw))) ->
  forall pending data0 data rest,
    P data0 ->
    return_data_loop command tmo data0 pending = (Returns data, rest) ->
    P data.
Proof.
  intros Hkeep. induction pending as [|raw pending IH]; intros data0 data rest H0.
  - cbn [Humodem.return_data_loop].
    destruct tmo; [destruct (check_for_errors (rstrip ""))|]; discriminate.
  - cbn [Humodem.return_data_loop].
    destruct (check_for_errors (rstrip raw)); [discriminate|].
    destruct (rstrip raw =? "")%string eqn:E; destruct (rstrip raw =? "OK")%string.
    all: try (intros [= <- _]; exact H0).
    all: apply IH; now apply Hkeep.
Qed.

(** X5.  Whatever [return_data] returns, no string in it ends in white
    space; without a prefix no string in it is empty either. *)
Theorem return_data_results_stripped
  (command : option string) (p p' : ModemPort) (data : list string) :
  return_data command p = (Returns data, p') ->
  Forall stripped data /\
  (truthy command = false -> Forall (fun x => x <> "") data).
Proof.
  unfold Humodem.return_data.
  destruct (return_data_loop command (timeout p) [] (rx p)) as [r rest] eqn:Hloop.
  intros [= -> _]. split.
  - eapply (return_data_loop_keeps (Forall stripped)); [| | exact Hloop].
    + intros d raw. apply retain_stripped.
    + constructor.
  - intros Hcmd.
    eapply (return_data_loop_keeps (Forall (fun x => x <> "")));
      [| | exact Hloop].
    + intros d raw. now apply retain_non_empty.
    + constructor.
Qed.

Lemma fold_retain_answers (cmd : string) (payloads : list string) :
  str_truthy cmd = true ->
  forall data,
    fold_left (retain (Some cmd)) (map rstrip (map (answer cmd) payloads)) data
    = data ++ map rstrip payloads.
Proof.
  intros Hcmd. induction payloads as [|pl payloads IH]; intros data.
  - now rewrite app_nil_r.
  - cbn [map fold_left]. rewrite retain_answer by assumption.
    rewrite IH, <- app_assoc. reflexivity.
Qed.

(** X6.  With a non-empty prefix and a run of well-formed answer lines
    (the prefix, a colon and a space, a payload, the line terminator)
    before the terminator, [return_data] returns the payloads, each
    right-stripped, in order. *)
Theorem return_data_decodes_answers
  (cmd : string) (p : ModemPort) (payloads : list string) (l : string)
  (post : list string) :
  str_truthy cmd = true ->
  rx p = map (answer cmd) payloads ++ l :: post ->
  Forall passes (map (answer cmd) payloads) ->
  check_for_errors (rstrip l) = None ->
  rstrip l = "OK" ->
  return_data (Some cmd) p = (Returns (map rstrip payloads), set_rx p post).
Proof.
  intros Hcmd Hrx Hbody Hl Hok.
  unfold Humodem.return_data. rewrite Hrx.
  rewrite (return_data_loop_terminator check_for_errors _ _
             (map (answer cmd) payloads) l post) by assumption.
  now rewrite fold_retain_answers.
Qed.

(** X4.  A [send] that waits, on a port where the echo is not classified and
    the answer runs up to its terminator without a classified line: it
    writes the framed text once, and it returns what [return_data] keeps of
    the lines between the echo and the terminator.  The echo is never part
    of the result, and the lines behind the terminator stay on the port for
    the next call. *)
Theorem send_returns_reply
  (text : string) (at_cmd : option string) (p : ModemPort)
  (echo : string) (body : list string) (l : string) (post : list string) :
  rx p = echo :: body ++ l :: post ->
  check_for_errors echo = None ->
  Forall passes body ->
  check_for_errors (rstrip l) = None ->
  rstrip l = "OK" ->
  send text true at_cmd p =
  (Returns
     (Some
        (match at_cmd with
         | Some (String _ _ as cmd) =>
             map (slice_from (String.length cmd + 2))
               (filter (fun x => startswith x cmd) (map rstrip body))
         | _ => filter str_truthy (map rstrip body)
         end)),
   mkPort (port p) (timeout p) (is_open p) post
     (tx p ++ [framed at_cmd text])).
Proof.
  intros Hrx Hecho Hbody Hl Hok.
  rewrite send_unfold. unfold readline, set_tx, set_rx; cbn.
  rewrite Hrx, Hecho.
  unfold Humodem.return_data; cbn.
  rewrite (return_data_loop_terminator check_for_errors _ _ body l post)
    by assumption.
  destruct at_cmd as [[|c cmd]|].
  - now rewrite fold_retain_no_prefix.
  - now rewrite fold_retain_prefix.
  - now rewrite fold_retain_no_prefix.
Qed.

Lemma return_data_loop_empty_prefix tmo (pending data : list string) :
  return_data_loop (Some "") tmo data pending =
  return_data_loop None tmo data pending.
Proof.
  revert data. induction pending as [|raw pending IH]; intros data;
    [reflexivity|].
  cbn [Humodem.return_data_loop].
  destruct (check_for_errors (rstrip raw)); [reflexivity|].
  destruct (rstrip raw =? "OK")%string; [reflexivity|].
  apply IH.
Qed.

(** X7.  An empty string as [at_cmd] counts as no [at_cmd]: the text is
    written without the AT framing and the answer is not filtered by a
    prefix. *)
Theorem send_empty_at_cmd (text : string) (wait : bool) (p : ModemPort) :
  send text wait (Some "") p = send text wait None p.
Proof.
  rewrite !send_unfold. unfold framed. cbn [truthy str_truthy].
  destruct (readline (set_tx p (tx p ++ [text]))) as [[l| |] p1];
    try reflexivity.
  destruct (check_for_errors l); [reflexivity|].
  destruct wait; [|reflexivity].
  unfold Humodem.return_data.
  now rewrite return_data_loop_empty_prefix.
Qed.

End TransactorFurther.

(** ** More on the threads of a started prober *)

Section SessionFurther.

Variables Pattern Action ModemState : Type.
Variable search : Pattern -> string -> bool.
Variable call : Action -> ModemState -> string -> option exn * ModemState.
Variable no_match : Action.
Variable patterns : list (Pattern * Action).

Local Abbreviation Session := (Session Pattern Action ModemState).
Local Abbreviation interpret := (interpret search call no_match).
Local Abbreviation step := (step search call no_match patterns).
Local Abbreviation run := (run search call no_match patterns).
Local Abbreviation run_invariant :=
  (run_invariant Pattern Action ModemState search call no_match patterns).

Ltac step_cases H :=
  unfold Humodem.step, feeder_step, interp_step, stop_step, readline in H;
  repeat match type of H with
    | context [match ?x with _ => _ end] => destruct x eqn:?
    end;
  try discriminate H;
  injection H as <-;
  cbn [queue ctrl_port ctrl_lock feeder_active feeder_at interp_active
       interp_at feeder_set stop_at modem trace] in *.

Ltac at_pc :=
  repeat match goal with
    | Hpc : feeder_at _ = _ |- _ => rewrite Hpc in *
    | Hpc : interp_at _ = _ |- _ => rewrite Hpc in *
    | Hpc : stop_at _ = _ |- _ => rewrite Hpc in *
    end.

Lemma readline_keeps_timeout (p p' : ModemPort) (r : outcome string) :
  readline p = (r, p') -> timeout p' = timeout p.
Proof.
  unfold readline.
  destruct (rx p); [destruct (timeout p) eqn:Ht|]; intros [= _ <-];
    try assumption; reflexivity.
Qed.

(** No step changes whether the control port has a timeout. *)
Lemma timeout_step t (s s' : Session) :
  step t s = Some s' -> timeout (ctrl_port s') = timeout (ctrl_port s).
Proof.
  intros H.
  unfold Humodem.step, feeder_step, interp_step, stop_step in H.
  destruct t.
  - destruct (feeder_at s); try discriminate H;
      try (injection H as <-; reflexivity).
    + destruct (ctrl_lock s); [discriminate H|].
      injection H as <-; reflexivity.
    + destruct (readline (ctrl_port s)) as [[l| |] p'] eqn:Hread;
        try discriminate H.
      injection H as <-. cbn [ctrl_port].
      eapply readline_keeps_timeout. exact Hread.
  - destruct (interp_at s); try discriminate H;
      try (injection H as <-; reflexivity).
    + destruct (queue s); [discriminate H|]. injection H as <-; reflexivity.
    + destruct (interpret patterns (modem s) message) as [did [raised modem']].
      injection H as <-; reflexivity.
  - destruct (stop_at s); try discriminate H; injection H as <-; reflexivity.
Qed.

(** What holds in every state a started prober can reach when its control
    port has a timeout: the port keeps it, and the lock is held exactly
    while the feeder stands between acquire and release. *)
Lemma reached_lock_and_timeout
  (q0 : list string) (port : ModemPort) (m : ModemState)
  (schedule : list thread) (s : Session) :
  timeout port = true ->
  run schedule (started q0 port m) = Some s ->
  timeout (ctrl_port s) = true /\ ctrl_lock s = feeder_holds_lock s.
Proof.
  intros Ht.
  apply (run_invariant
           (fun s => timeout (ctrl_port s) = true /\
                     ctrl_lock s = feeder_holds_lock s));
    [|split; [exact Ht | reflexivity]].
  intros t s1 s2 [Ht1 Hl1] H. split.
  - rewrite (timeout_step _ _ _ H). exact Ht1.
  - eapply lock_step; eassumption.
Qed.

(** X8.  In a started prober whose control port has a timeout the feeder
    never waits: as long as its loop has not ended it can take its next
    step, in particular the lock is free whenever it wants to acquire it
    and the read returns. *)
Theorem feeder_never_blocks
  (q0 : list string) (port : ModemPort) (m : ModemState)
  (schedule : list thread) (s : Session) :
  timeout port = true ->
  run schedule (started q0 port m) = Some s ->
  feeder_at s <> F_done ->
  exists s', step T_feeder s = Some s'.
Proof.
  intros Ht Hrun Hnot.
  destruct (reached_lock_and_timeout _ _ _ _ _ Ht Hrun) as [Hts Hlock].
  unfold feeder_holds_lock in Hlock.
  cbn [Humodem.step]. unfold feeder_step.
  destruct (feeder_at s) eqn:Hpc; try (eexists; reflexivity).
  - rewrite Hlock. eexists; reflexivity.
  - destruct (readline_timeout _ Hts) as (l & p' & Hread & _).
    rewrite Hread. eexists; reflexivity.
  - now contradiction Hnot.
Qed.

(** With its flag cleared the feeder never gets it back, and it puts at
    most the line of the pass it is in. *)
Lemma feeder_inactive_step t (s s' : Session) :
  feeder_active s = false ->
  step t s = Some s' ->
  feeder_active s' = false /\
  length (feeder_puts (trace s')) + feeder_puts_left s' <=
  length (feeder_puts (trace s)) + feeder_puts_left s.
Proof.
  unfold feeder_puts_left. intros Hflag H.
  step_cases H;
    rewrite ?feeder_puts_app, ?length_app; cbn [feeder_puts length];
    at_pc;
    try (split; [assumption || reflexivity | lia]);
    congruence.
Qed.

(** X9.  Once the feeder's flag is cleared, the feeder puts at most one
    more line on the queue, whatever the schedule; and left to itself on a
    control port with a timeout it leaves its loop within six of its own
    steps, with the lock released. *)
Theorem feeder_winds_down
  (q0 : list string) (port : ModemPort) (m : ModemState)
  (schedule : list thread) (s : Session) :
  timeout port = true ->
  run schedule (started q0 port m) = Some s ->
  feeder_active s = false ->
  (forall schedule' s',
     run schedule' s = Some s' ->
     length (feeder_puts (trace s')) <= length (feeder_puts (trace s)) + 1)
  /\
  (exists k s',
     k <= 6 /\
     run (repeat T_feeder k) s = Some s' /\
     feeder_at s' = F_done /\
     ctrl_lock s' = false).
Proof.
  intros Ht Hrun Hflag. split.
  - intros schedule' s' Hrun'.
    assert (Hinv : feeder_active s' = false /\
                   length (feeder_puts (trace s')) + feeder_puts_left s' <=
                   length (feeder_puts (trace s)) + feeder_puts_left s).
    { revert Hrun'.
      apply (run_invariant
               (fun s' => feeder_active s' = false /\
                          length (feeder_puts (trace s')) + feeder_puts_left s'
                          <= length (feeder_puts (trace s)) + feeder_puts_left s));
        [|split; [assumption | lia]].
      intros t s1 s2 [Hf Hle] H.
      destruct (feeder_inactive_step t s1 s2 Hf H) as [Hf' Hle'].
      split; [assumption | lia]. }
    assert (feeder_puts_left s <= 1)
      by (unfold feeder_puts_left; destruct (feeder_at s); lia).
    lia.
  - destruct (reached_lock_and_timeout _ _ _ _ _ Ht Hrun) as [Hts Hlock].
    unfold feeder_holds_lock in Hlock.
    destruct (readline_timeout _ Hts) as (l & p' & Hread & _).
    destruct (feeder_at s) eqn:Hpc.
    + exists 1. eexists. split; [lia|].
      cbn [repeat Humodem.run Humodem.step]. unfold feeder_step.
      rewrite Hpc, Hflag. split; [reflexivity|]. split; [reflexivity | exact Hlock].
    + exists 6. eexists. split; [lia|].
      cbn [repeat Humodem.run Humodem.step].
      unfold feeder_step at 1. rewrite Hpc, Hlock.
      unfold feeder_step at 1. cbn [feeder_at ctrl_port]. rewrite Hread.
      cbn. rewrite Hflag. repeat split.
    + exists 5. eexists. split; [lia|].
      cbn [repeat Humodem.run Humodem.step].
      unfold feeder_step at 1. rewrite Hpc, Hread.
      cbn. rewrite Hflag. repeat split.
    + exists 4. eexists. split; [lia|].
      cbn [repeat Humodem.run Humodem.step].
      unfold feeder_step at 1. rewrite Hpc.
      cbn. rewrite Hflag. repeat split.
    + exists 3. eexists. split; [lia|].
      cbn [repeat Humodem.run Humodem.step].
      unfold feeder_step at 1. rewrite Hpc.
      cbn. rewrite Hflag. repeat split.
    + exists 2. eexists. split; [lia|].
      cbn [repeat Humodem.run Humodem.step].
      unfold feeder_step at 1. rewrite Hpc.
      cbn. rewrite Hflag. repeat split. exact Hlock.
    + exists 0, s. split; [lia|]. repeat split; assumption.
Qed.

(** From the moment [Prober.stop] has put its sentinel the interpreter's
    flag is cleared, and an interpreter that waits for a message finds
    one. *)
Lemma sentinel_step t (s s' : Session) :
  ((stop_at s = P_interp_put \/ before_sentinel (stop_at s) = false) ->
   interp_active s = false) /\
  (before_sentinel (stop_at s) = false ->
   interp_at s = I_get -> queue s <> []) ->
  step t s = Some s' ->
  ((stop_at s' = P_interp_put \/ before_sentinel (stop_at s') = false) ->
   interp_active s' = false) /\
  (before_sentinel (stop_at s') = false ->
   interp_at s' = I_get -> queue s' <> []).
Proof.
  intros [Hflag Hq] H.
  step_cases H; at_pc; cbn [before_sentinel] in *; split;
    try assumption;
    try (intros; reflexivity);
    try (intros [|]; discriminate);
    try (intros; discriminate);
    try (intros Hb Hi; specialize (Hq Hb Hi);
         destruct (queue s); [now contradiction Hq | discriminate]).
  all: try (intros Hs; specialize (Hflag Hs); congruence).
  all: try (intros _ _; now destruct (queue s)).
  all: try (intros; apply Hflag; now left).
  all: try (intros Hb _; specialize (Hflag (or_intror Hb)); discriminate).
  all: intros _; apply Hflag; right; reflexivity.
Qed.

(** X10.  Once [Prober.stop] has put its sentinel, the interpreter cannot
    stay blocked on the queue: left to itself it ends within three of its
    own steps (the message it waits for is there; after it, the loop sees
    the cleared flag). *)
Theorem sentinel_unblocks_interpreter
  (q0 : list string) (port : ModemPort) (m : ModemState)
  (schedule : list thread) (s : Session) :
  run schedule (started q0 port m) = Some s ->
  before_sentinel (stop_at s) = false ->
  exists k s',
    k <= 3 /\
    run (repeat T_interp k) s = Some s' /\
    interp_ended s'.
Proof.
  intros Hrun Hafter.
  assert (Hinv :
    ((stop_at s = P_interp_put \/ before_sentinel (stop_at s) = false) ->
     interp_active s = false) /\
    (before_sentinel (stop_at s) = false ->
     interp_at s = I_get -> queue s <> [])).
  { revert Hrun.
    apply (run_invariant
             (fun s =>
                ((stop_at s = P_interp_put \/ before_sentinel (stop_at s) = false)
                 -> interp_active s = false) /\
                (before_sentinel (stop_at s) = false ->
                 interp_at s = I_get -> queue s <> []))).
    - intros t s1 s2. apply sentinel_step.
    - cbn. split; [intros [|]; discriminate | discriminate]. }
  destruct Hinv as [Hflag Hq].
  specialize (Hflag (or_intror Hafter)). specialize (Hq Hafter).
  unfold interp_ended.
  destruct (interp_at s) eqn:Hpc.
  - (* at the loop test *)
    exists 1. eexists. split; [lia|].
    cbn [repeat Humodem.run Humodem.step]. unfold interp_step.
    rewrite Hpc, Hflag. split; [reflexivity | exact I].
  - (* waiting for a message *)
    destruct (queue s) as [|message q] eqn:Hqueue; [now contradiction Hq|].
    destruct (interpret patterns (modem s) message)
      as [did [[e|] modem']] eqn:Hint.
    + exists 2. eexists. split; [lia|].
      cbn [repeat Humodem.run Humodem.step].
      unfold interp_step at 1. rewrite Hpc, Hqueue.
      unfold interp_step at 1. cbn [interp_at modem]. rewrite Hint.
      split; [reflexivity | exact I].
    + exists 3. eexists. split; [lia|].
      cbn [repeat Humodem.run Humodem.step].
      unfold interp_step at 1. rewrite Hpc, Hqueue.
      unfold interp_step at 1. cbn [interp_at modem]. rewrite Hint.
      unfold interp_step at 1. cbn [interp_at interp_active]. rewrite Hflag.
      split; [reflexivity | exact I].
  - (* a message in flight *)
    destruct (interpret patterns (modem s) message)
      as [did [[e|] modem']] eqn:Hint.
    + exists 1. eexists. split; [lia|].
      cbn [repeat Humodem.run Humodem.step].
      unfold interp_step at 1. rewrite Hpc, Hint.
      split; [reflexivity | exact I].
    + exists 2. eexists. split; [lia|].
      cbn [repeat Humodem.run Humodem.step].
      unfold interp_step at 1. rewrite Hpc, Hint.
      unfold interp_step at 1. cbn [interp_at interp_active]. rewrite Hflag.
      split; [reflexivity | exact I].
  - exists 0, s. split; [lia|]. split; [reflexivity|]. now rewrite Hpc.
  - exists 0, s. split; [lia|]. split; [reflexivity|]. now rewrite Hpc.
Qed.

End SessionFurther.

Section SessionDispatch.

Variables Pattern Action ModemState : Type.
Variable search : Pattern -> string -> bool.
Variable call : Action -> ModemState -> string -> option exn * ModemState.
Variable no_match : Action.
Variable patterns : list (Pattern * Action).

Local Abbreviation Session := (Session Pattern Action ModemState).
Local Abbreviation event := (event Pattern Action ModemState).
Local Abbreviation interpret := (interpret search call no_match).
Local Abbreviation step := (step search call no_match patterns).
Local Abbreviation run := (run search call no_match patterns).

Lemma one_action_step t (s s' : Session) :
  Forall one_action (trace s) ->
  step t s = Some s' ->
  Forall one_action (trace s').
Proof.
  intros Inv H.
  unfold Humodem.step, feeder_step, interp_step, stop_step in H.
  destruct t.
  - destruct (feeder_at s); try discriminate H;
      try destruct (ctrl_lock s); try discriminate H;
      try destruct (readline (ctrl_port s)) as [[l| |] p'];
      try discriminate H;
      injection H as <-; cbn [trace]; try assumption;
      apply Forall_app; split; try assumption; repeat constructor.
  - destruct (interp_at s) eqn:Hpc; try discriminate H.
    + injection H as <-. exact Inv.
    + destruct (queue s); [discriminate H|]. injection H as <-.
      cbn [trace]. apply Forall_app; split; try assumption.
      repeat constructor.
    + destruct (interpret_one_call Pattern Action ModemState search call
                  no_match patterns (modem s) message) as (a & Hcalls & _).
      destruct (interpret patterns (modem s) message) as [did [raised modem']].
      injection H as <-. cbn [trace fst] in *.
      apply Forall_app; split; try assumption.
      constructor; [|constructor]. cbn [one_action]. eauto.
  - destruct (stop_at s); try discriminate H;
      injection H as <-; cbn [trace]; try assumption;
      apply Forall_app; split; try assumption; repeat constructor.
Qed.

(** X17.  Along every schedule of a started prober, each message the
    interpreter dispatched fired exactly one action, called on that very
    message. *)
Theorem every_dispatch_fires_one_action
  (q0 : list string) (port : ModemPort) (m : ModemState)
  (schedule : list thread) (s : Session) :
  run schedule (started q0 port m) = Some s ->
  Forall one_action (trace s).
Proof.
  apply (run_invariant Pattern Action ModemState search call no_match
           patterns (fun s => Forall one_action (trace s)));
    [|constructor].
  intros t s1 s2. apply one_action_step.
Qed.

End SessionDispatch.

(** ** More on the prober and the modem *)

(** The prober is stopped, or it runs with both its threads active. *)
Lemma prober_do_keeps (c : prober_call) (p : Prober) :
  (_feeder p = None \/
   (_feeder p = Some (mkQueueFeeder true) /\
    _interpreter p = Some (mkInterpreter true))) ->
  returned_or_usage_error (fst (prober_do c p)) /\
  (_feeder (snd (prober_do c p)) = None \/
   (_feeder (snd (prober_do c p)) = Some (mkQueueFeeder true) /\
    _interpreter (snd (prober_do c p)) = Some (mkInterpreter true))).
Proof.
  unfold returned_or_usage_error.
  intros [Hf | [Hf Hi]]; destruct c; cbn [prober_do].
  - rewrite Prober_start_unset by assumption. cbn. split; [now left|].
    right. split; reflexivity.
  - rewrite Prober_stop_unset by assumption. cbn. split; [|now left].
    right. eexists; reflexivity.
  - rewrite Prober_start_set by congruence. cbn. split; [|now right].
    right. eexists; reflexivity.
  - rewrite Prober_stop_set by congruence. cbn. split; now left.
Qed.

(** X11.  Whatever sequence of [start] and [stop] calls is made on a new
    prober, every call either returns or raises [HumodUsageError] (never
    an [AttributeError] on a missing thread), and afterwards the prober is
    either stopped or running with both its feeder and its interpreter
    active. *)
Theorem prober_calls_from_init (cs : list prober_call) :
  Forall returned_or_usage_error (fst (prober_calls cs Prober_init)) /\
  (_feeder (snd (prober_calls cs Prober_init)) = None \/
   (_feeder (snd (prober_calls cs Prober_init)) = Some (mkQueueFeeder true) /\
    _interpreter (snd (prober_calls cs Prober_init)) =
    Some (mkInterpreter true))).
Proof.
  assert (Hinit : _feeder Prober_init = None \/
                  (_feeder Prober_init = Some (mkQueueFeeder true) /\
                   _interpreter Prober_init = Some (mkInterpreter true)))
    by now left.
  revert Hinit. generalize Prober_init.
  induction cs as [|c cs IH]; intros p Hp.
  - cbn. split; [constructor | exact Hp].
  - cbn [prober_calls].
    destruct (prober_do_keeps c p Hp) as [Hr Hp1].
    destruct (prober_do c p) as [r p1]. cbn [fst snd] in *.
    specialize (IH p1 Hp1).
    destruct (prober_calls cs p1) as [rs p2]. cbn [fst snd] in *.
    destruct IH as [Hrs Hp2].
    split; [constructor; assumption | exact Hp2].
Qed.

Section ModemFurther.

Variable check_for_errors : string -> option exn.

Local Abbreviation passes := (passes check_for_errors).
Local Abbreviation send := (send check_for_errors).
Local Abbreviation connect := (connect check_for_errors).

Lemma send_reply_folded
  (text : string) (at_cmd : option string) (p : ModemPort)
  (echo : string) (body : list string) (l : string) (post : list string) :
  rx p = echo :: body ++ l :: post ->
  check_for_errors echo = None ->
  Forall passes body ->
  check_for_errors (rstrip l) = None ->
  rstrip l = "OK" ->
  send text true at_cmd p =
  (Returns (Some (fold_left (retain at_cmd) (map rstrip body) [])),
   mkPort (port p) (timeout p) (is_open p) post
     (tx p ++ [framed at_cmd text])).
Proof.
  intros Hrx Hecho Hbody Hl Hok.
  rewrite send_unfold. unfold readline, set_tx, set_rx; cbn.
  rewrite Hrx, Hecho.
  unfold Humodem.return_data; cbn.
  rewrite (return_data_loop_terminator check_for_errors _ _ body l post)
    by assumption.
  reflexivity.
Qed.

Lemma send_reply_error
  (text : string) (at_cmd : option string) (p : ModemPort)
  (echo : string) (body : list string) (l : string) (post : list string)
  (e : exn) :
  rx p = echo :: body ++ l :: post ->
  check_for_errors echo = None ->
  Forall passes body ->
  check_for_errors (rstrip l) = Some e ->
  send text true at_cmd p =
  (Raises e,
   mkPort (port p) (timeout p) (is_open p) post
     (tx p ++ [framed at_cmd text])).
Proof.
  intros Hrx Hecho Hbody Hl.
  rewrite send_unfold. unfold readline, set_tx, set_rx; cbn.
  rewrite Hrx, Hecho.
  unfold Humodem.return_data; cbn.
  rewrite (return_data_loop_error check_for_errors _ _ body l post e)
    by assumption.
  reflexivity.
Qed.

Lemma send_echo_only
  (text : string) (at_cmd : option string) (p : ModemPort)
  (echo : string) (rest : list string) :
  rx p = echo :: rest ->
  check_for_errors echo = None ->
  send text false at_cmd p =
  (Returns None,
   mkPort (port p) (timeout p) (is_open p) rest
     (tx p ++ [framed at_cmd text])).
Proof.
  intros Hrx Hecho.
  rewrite send_unfold. unfold readline, set_tx, set_rx; cbn.
  rewrite Hrx, Hecho. reflexivity.
Qed.

(** The dialogue of [connect] on a data port that is not open yet, where
    ATZ is echoed and answered up to its terminator and the dial command is
    echoed: the port is opened, both commands are written, and the line
    behind the dial echo is the status. *)
Lemma connect_dialogue
  (dial : string) (p : ModemPort) (echo1 : string) (body : list string)
  (ok echo2 status : string) (rest : list string) :
  is_open p = false ->
  rx p = echo1 :: body ++ ok :: echo2 :: status :: rest ->
  check_for_errors echo1 = None ->
  Forall passes body ->
  check_for_errors (rstrip ok) = None ->
  rstrip ok = "OK" ->
  check_for_errors echo2 = None ->
  (open ;;
   send ("ATZ" ++ CR) true None ;;
   send ("ATDT" ++ dial ++ CR) false None ;;
   readline) p =
  (Returns status,
   mkPort (port p) (timeout p) true rest
     (tx p ++ [("ATZ" ++ CR)%string; ("ATDT" ++ dial ++ CR)%string])).
Proof.
  intros Hclosed Hrx He1 Hbody Hok1 Hok2 He2.
  unfold bind at 1. unfold open. rewrite Hclosed.
  unfold bind at 1.
  rewrite (send_reply_folded _ None (set_open p true)
             echo1 body ok (echo2 :: status :: rest))
    by assumption.
  unfold bind at 1.
  rewrite (send_echo_only _ None _ echo2 (status :: rest))
    by (reflexivity || assumption).
  unfold readline. cbn.
  rewrite <- app_assoc. reflexivity.
Qed.

(** An unconnected modem whose data port is open already: [connect] raises
    at [open] and touches nothing. *)
Lemma connect_on_open_port (fork_pid : nat) (execv_fails : bool) (m : Modem) :
  pid_truthy (_pppd_pid m) = false ->
  is_open (data_port m) = true ->
  connect fork_pid execv_fails m = (Raises PORT_ALREADY_OPEN, m).
Proof.
  intros Hpid Hopen.
  unfold Humodem.connect. rewrite Hpid. cbn [negb].
  unfold bind at 1. unfold open. rewrite Hopen.
  unfold set_data_port. destruct m; reflexivity.
Qed.

(** X12.  A [connect] on a modem that is not connected and whose data port
    is not open yet, whose dialogue ends in a CONNECT status, in the parent
    of the fork: it returns with the child's pid recorded, having opened
    the port, written ATZ and the dial command and made the one fork.  The
    [disconnect] that follows sends signal 15 to that pid and forgets it,
    so that a second [disconnect] raises [HumodUsageError]; it does not
    close the data port, so that a new [connect] raises at [open]. *)
Theorem connect_then_disconnect
  (n : nat) (execv_fails : bool) (m : Modem) (echo1 : string)
  (body : list string) (ok echo2 status : string) (rest : list string) :
  pid_truthy (_pppd_pid m) = false ->
  is_open (data_port m) = false ->
  rx (data_port m) = echo1 :: body ++ ok :: echo2 :: status :: rest ->
  check_for_errors echo1 = None ->
  Forall passes body ->
  check_for_errors (rstrip ok) = None ->
  rstrip ok = "OK" ->
  check_for_errors echo2 = None ->
  startswith status "CONNECT" = true ->
  exists m1 m2,
    connect (S n) execv_fails m = (Returns tt, m1) /\
    _pppd_pid m1 = Some (S n) /\
    is_open (data_port m1) = true /\
    rx (data_port m1) = rest /\
    tx (data_port m1) =
    tx (data_port m)
      ++ [("ATZ" ++ CR)%string; ("ATDT" ++ _dial_num m ++ CR)%string] /\
    m_syscalls m1 = m_syscalls m ++ [Fork] /\
    disconnect m1 = (Returns tt, m2) /\
    _pppd_pid m2 = None /\
    data_port m2 = data_port m1 /\
    m_syscalls m2 = m_syscalls m ++ [Fork; Kill (S n) 15] /\
    disconnect m2 = (Raises (HumodUsageError "Not connected."), m2) /\
    forall fork_pid' execv_fails',
      connect fork_pid' execv_fails' m2 = (Raises PORT_ALREADY_OPEN, m2).
Proof.
  intros Hpid Hclosed Hrx He1 Hbody Hok1 Hok2 He2 Hstatus.
  unfold Humodem.connect at 1. rewrite Hpid. cbn [negb].
  rewrite (connect_dialogue _ _ echo1 body ok echo2 status rest)
    by assumption.
  rewrite Hstatus.
  eexists. eexists. split; [reflexivity|].
  cbn [_pppd_pid data_port is_open rx tx m_syscalls].
  do 5 (split; [reflexivity|]).
  split; [reflexivity|].
  cbn [_pppd_pid data_port m_syscalls].
  split; [reflexivity|]. split; [reflexivity|].
  split; [now rewrite <- app_assoc|].
  split; [reflexivity|].
  intros fork_pid' execv_fails'.
  apply connect_on_open_port; reflexivity.
Qed.

(** X13.  A [connect] on a modem that is not connected and whose data port
    is not open yet, whose dialogue ends in a status that does not start
    with CONNECT, returns as if nothing were wrong: no exception, no fork,
    no pid recorded.  The modem is not connected: a [disconnect] raises
    [HumodUsageError].  The data port is left open, so that the next
    [connect] does not dial again: it raises at [open]. *)
Theorem connect_without_carrier
  (fork_pid : nat) (execv_fails : bool) (m : Modem) (echo1 : string)
  (body : list string) (ok echo2 status : string) (rest : list string) :
  pid_truthy (_pppd_pid m) = false ->
  is_open (data_port m) = false ->
  rx (data_port m) = echo1 :: body ++ ok :: echo2 :: status :: rest ->
  check_for_errors echo1 = None ->
  Forall passes body ->
  check_for_errors (rstrip ok) = None ->
  rstrip ok = "OK" ->
  check_for_errors echo2 = None ->
  startswith status "CONNECT" = false ->
  exists m1,
    connect fork_pid execv_fails m = (Returns tt, m1) /\
    _pppd_pid m1 = _pppd_pid m /\
    m_syscalls m1 = m_syscalls m /\
    is_open (data_port m1) = true /\
    rx (data_port m1) = rest /\
    tx (data_port m1) =
    tx (data_port m)
      ++ [("ATZ" ++ CR)%string; ("ATDT" ++ _dial_num m ++ CR)%string] /\
    disconnect m1 = (Raises (HumodUsageError "Not connected."), m1) /\
    forall fork_pid' execv_fails',
      connect fork_pid' execv_fails' m1 = (Raises PORT_ALREADY_OPEN, m1).
Proof.
  intros Hpid Hclosed Hrx He1 Hbody Hok1 Hok2 He2 Hstatus.
  unfold Humodem.connect at 1. rewrite Hpid. cbn [negb].
  rewrite (connect_dialogue _ _ echo1 body ok echo2 status rest)
    by assumption.
  rewrite Hstatus.
  eexists. split; [reflexivity|].
  unfold set_data_port.
  cbn [_pppd_pid data_port is_open rx tx m_syscalls].
  do 5 (split; [reflexivity|]).
  split.
  - unfold disconnect. cbn [_pppd_pid].
    unfold pid_truthy in Hpid.
    destruct (_pppd_pid m) as [[|k]|]; try reflexivity; discriminate.
  - intros fork_pid' execv_fails'.
    apply connect_on_open_port; [exact Hpid | reflexivity].
Qed.

(** X14.  A [connect] on a modem that is not connected and whose data port
    is not open yet, in which the modem answers ATZ with a classified
    error, raises that error: the dial command is never written, nothing is
    forked and no pid is recorded. *)
Theorem connect_aborts_before_dial
  (fork_pid : nat) (execv_fails : bool) (m : Modem) (echo1 : string)
  (body : list string) (l : string) (post : list string) (e : exn) :
  pid_truthy (_pppd_pid m) = false ->
  is_open (data_port m) = false ->
  rx (data_port m) = echo1 :: body ++ l :: post ->
  check_for_errors echo1 = None ->
  Forall passes body ->
  check_for_errors (rstrip l) = Some e ->
  exists m1,
    connect fork_pid execv_fails m = (Raises e, m1) /\
    tx (data_port m1) = tx (data_port m) ++ [("ATZ" ++ CR)%string] /\
    rx (data_port m1) = post /\
    _pppd_pid m1 = _pppd_pid m /\
    m_syscalls m1 = m_syscalls m.
Proof.
  intros Hpid Hclosed Hrx He1 Hbody Hl.
  unfold Humodem.connect. rewrite Hpid. cbn [negb].
  unfold bind at 1. unfold open. rewrite Hclosed.
  unfold bind at 1.
  rewrite (send_reply_error _ None (set_open (data_port m) true) echo1 body l post e)
    by assumption.
  eexists. split; [reflexivity|]. cbn. repeat split.
Qed.

(** X16.  In the child of the fork (the fork answers 0) a [connect] on a
    modem that is not connected and whose data port is not open yet, whose
    dialogue ends in a CONNECT status, never returns: it calls [execv] on
    pppd with the baud rate, the data port's name and the settings, and
    either that replaces the process or, when [execv] fails, [PppdError] is
    raised.  No pid is recorded in the child. *)
Theorem connect_in_child
  (execv_fails : bool) (m : Modem) (echo1 : string)
  (body : list string) (ok echo2 status : string) (rest : list string) :
  pid_truthy (_pppd_pid m) = false ->
  is_open (data_port m) = false ->
  rx (data_port m) = echo1 :: body ++ ok :: echo2 :: status :: rest ->
  check_for_errors echo1 = None ->
  Forall passes body ->
  check_for_errors (rstrip ok) = None ->
  rstrip ok = "OK" ->
  check_for_errors echo2 = None ->
  startswith status "CONNECT" = true ->
  exists m1,
    connect 0 execv_fails m =
    (if execv_fails
     then Raises (PppdError "An error while starting pppd.")
     else NoReturn, m1) /\
    _pppd_pid m1 = _pppd_pid m /\
    m_syscalls m1 =
    m_syscalls m
      ++ [Fork;
          Execv PPPD_PATH
            ([PPPD_PATH; baudrate m; port (data_port m)] ++ settings m)].
Proof.
  intros Hpid Hclosed Hrx He1 Hbody Hok1 Hok2 He2 Hstatus.
  unfold Humodem.connect. rewrite Hpid. cbn [negb].
  rewrite (connect_dialogue _ _ echo1 body ok echo2 status rest)
    by assumption.
  rewrite Hstatus.
  eexists. split; [reflexivity|]. cbn. repeat split.
Qed.

End ModemFurther.

(** ** The status report *)

Lemma length_spaces (n : nat) : String.length (spaces n) = n.
Proof.
  induction n as [|n IH]; [reflexivity|]. cbn. now rewrite IH.
Qed.

Lemma length_rjust (width : nat) (s : string) :
  String.length (rjust width s) = Nat.max width (String.length s).
Proof.
  unfold rjust. rewrite length_append, length_spaces. lia.
Qed.

Lemma format_aligned (label : string) (v : pyval) :
  String.length label <= 20 ->
  substring 20 3 (ConnectionStatus.format (label, v)) = " : "%string /\
  String.length (ConnectionStatus.format (label, v)) =
  23 + Nat.max 5 (String.length (py_str v)).
Proof.
  intros Hlen. unfold ConnectionStatus.format. cbn [fst snd].
  split.
  - assert (H20 : String.length (rjust 20 label) = 20)
      by (rewrite length_rjust; lia).
    revert H20. generalize (rjust 20 label) as padded.
    intros padded H20.
    do 21 (destruct padded as [|? padded]; try discriminate H20).
    destruct (rjust 5 (py_str v)); reflexivity.
  - rewrite !length_append, !length_rjust. cbn [String.length]. lia.
Qed.

Lemma blank_spaces (n : nat) : blank (spaces n).
Proof.
  unfold blank. induction n as [|n IH]; cbn; constructor; auto.
Qed.

Lemma string_app_assoc (a b c : string) :
  ((a ++ b) ++ c)%string = (a ++ b ++ c)%string.
Proof.
  induction a as [|x a IH]; [reflexivity|]. cbn [append]. now rewrite IH.
Qed.

(** X15.  Whatever the status fields hold, the report is an empty line
    followed by nine lines, one per field in the fixed order.  Each of the
    nine is: spaces, the label, the separator, spaces, the text of the
    value.  The label is padded to 20 columns, so the separator stands in
    columns 20 to 22; the text of the value is whole, padded with spaces on
    the left to five columns when it is shorter and never cut when it is
    longer. *)
Theorem report_is_aligned (self : ConnectionStatus.t) :
  exists lines,
    ConnectionStatus.report self = ""%string :: lines /\
    length lines = 9 /\
    Forall2
      (fun line item =>
         (exists pad_label pad_value,
            line =
            (pad_label ++ fst item ++ " : " ++ pad_value
               ++ py_str (snd item))%string /\
            blank pad_label /\
            blank pad_value /\
            String.length pad_label + String.length (fst item) = 20 /\
            String.length pad_value =
            5 - String.length (py_str (snd item))) /\
         substring 20 3 line = " : "%string /\
         String.length line =
         23 + Nat.max 5 (String.length (py_str (snd item))))
      lines (ConnectionStatus.mapping self).
Proof.
  eexists. split; [reflexivity|]. split; [reflexivity|].
  unfold ConnectionStatus.mapping. cbn [map].
  repeat (apply Forall2_cons || apply Forall2_nil);
    (split; [|apply format_aligned; cbn; lia]);
    match goal with
    | |- exists _ _, ConnectionStatus.format (?label, ?v) = _ /\ _ =>
        exists (spaces (20 - String.length label)),
               (spaces (5 - String.length (py_str v)));
        cbn [fst snd];
        split; [unfold ConnectionStatus.format, rjust; cbn [fst snd];
                now rewrite !string_app_assoc|];
        split; [apply blank_spaces|];
        split; [apply blank_spaces|];
        rewrite !length_spaces; split; [reflexivity | reflexivity]
    end.
Qed.

(** ** Further worked examples *)

(** A reply with trailing white space and a blank line. *)
Lemma return_data_results_stripped_witness :
  Forall stripped ["hello"%string] /\
  (truthy None = false -> Forall (fun x => x <> ""%string) ["hello"%string]).
Proof.
  apply (return_data_results_stripped example_check_for_errors None
           (example_port ["hello  "; "   "; "OK"]%string)
           (example_port []) ["hello"%string]).
  reflexivity.
Defined.

(** Two answers to +CSQ, the second with trailing blanks, and an
    unsolicited line behind the terminator. *)
Lemma return_data_decodes_answers_witness :
  return_data example_check_for_errors (Some "+CSQ"%string)
    (example_port [answer "+CSQ" "5,99"; answer "+CSQ" "7,99  ";
                   ("OK" ++ CRLF)%string; "RING"%string]) =
  (Returns ["5,99"; "7,99"]%string, example_port ["RING"%string]).
Proof.
  apply (return_data_decodes_answers example_check_for_errors "+CSQ"
           (example_port [answer "+CSQ" "5,99"; answer "+CSQ" "7,99  ";
                          ("OK" ++ CRLF)%string; "RING"%string])
           ["5,99"; "7,99  "]%string ("OK" ++ CRLF)%string ["RING"%string]).
  - reflexivity.
  - reflexivity.
  - repeat constructor; apply example_passes; reflexivity.
  - reflexivity.
  - reflexivity.
Defined.

(** An AT command with its echo, one answer, one unrelated line, the
    terminator and an unsolicited line behind it. *)
Lemma send_returns_reply_witness :
  send example_check_for_errors "+CSQ" true (Some "+CSQ"%string)
    (example_port [("AT+CSQ" ++ CRLF)%string; answer "+CSQ" "5,99";
                   ("^BOOT:1" ++ CRLF)%string; ("OK" ++ CRLF)%string;
                   "RING"%string]) =
  (Returns (Some ["5,99"%string]),
   mkPort DEFAULT_DATA_PORT false true ["RING"%string]
     [("AT+CSQ" ++ CR)%string]).
Proof.
  apply (send_returns_reply example_check_for_errors "+CSQ"
           (Some "+CSQ"%string)
           (example_port [("AT+CSQ" ++ CRLF)%string; answer "+CSQ" "5,99";
                          ("^BOOT:1" ++ CRLF)%string; ("OK" ++ CRLF)%string;
                          "RING"%string])
           ("AT+CSQ" ++ CRLF)%string
           [answer "+CSQ" "5,99"; ("^BOOT:1" ++ CRLF)%string]
           ("OK" ++ CRLF)%string ["RING"%string]).
  - reflexivity.
  - reflexivity.
  - repeat constructor; apply example_passes; reflexivity.
  - reflexivity.
  - reflexivity.
Defined.

(** The feeder stands at its acquire while the caller of [stop] has run to
    the end: it can still step. *)
Lemma feeder_never_blocks_witness :
  exists s,
    example_run ([T_feeder] ++ repeat T_stop 6) (example_session [] []) =
    Some s /\
    feeder_at s = F_acquire /\
    exists s',
      step example_search example_call ActNoMatch example_patterns
        T_feeder s = Some s'.
Proof.
  eexists. split; [vm_compute; reflexivity|].
  split; [vm_compute; reflexivity|].
  match goal with
  | |- exists s', step _ _ _ _ _ ?s = _ =>
      apply (feeder_never_blocks _ _ _ example_search example_call
               ActNoMatch example_patterns [] (example_ctrl_port []) []
               ([T_feeder] ++ repeat T_stop 6) s)
  end.
  - reflexivity.
  - vm_compute; reflexivity.
  - discriminate.
Defined.

(** The stop finds the feeder before its read: one more line is put, and
    six steps later the feeder has left with the lock released. *)
Lemma feeder_winds_down_witness :
  exists s,
    example_run ([T_feeder] ++ repeat T_stop 6)
      (example_session [] ["RING"]%string) = Some s /\
    feeder_active s = false /\
    (exists s',
       example_run (repeat T_feeder 6) s = Some s' /\
       length (feeder_puts (trace s')) <= length (feeder_puts (trace s)) + 1)
    /\
    (exists k s',
       k <= 6 /\
       example_run (repeat T_feeder k) s = Some s' /\
       feeder_at s' = F_done /\
       ctrl_lock s' = false).
Proof.
  eexists. split; [vm_compute; reflexivity|].
  split; [vm_compute; reflexivity|].
  match goal with
  | |- (exists s', example_run _ ?s = _ /\ _) /\ _ =>
      destruct (feeder_winds_down _ _ _ example_search example_call
                  ActNoMatch example_patterns []
                  (example_ctrl_port ["RING"]%string) []
                  ([T_feeder] ++ repeat T_stop 6) s)
        as [Hputs Hends];
        [reflexivity | vm_compute; reflexivity | reflexivity |]
  end.
  split; [|exact Hends].
  eexists. split; [vm_compute; reflexivity|].
  apply (Hputs (repeat T_feeder 6)). vm_compute; reflexivity.
Defined.

(** The stop finds the interpreter waiting on the empty queue. *)
Lemma sentinel_unblocks_interpreter_witness :
  exists s,
    example_run ([T_interp] ++ repeat T_stop 6) (example_session [] []) =
    Some s /\
    interp_at s = I_get /\
    exists k s',
      k <= 3 /\
      example_run (repeat T_interp k) s = Some s' /\
      interp_ended s'.
Proof.
  eexists. split; [vm_compute; reflexivity|].
  split; [vm_compute; reflexivity|].
  match goal with
  | |- exists k s', _ /\ example_run _ ?s = _ /\ _ =>
      apply (sentinel_unblocks_interpreter _ _ _ example_search example_call
               ActNoMatch example_patterns [] (example_ctrl_port []) []
               ([T_interp] ++ repeat T_stop 6) s)
  end.
  - vm_compute; reflexivity.
  - reflexivity.
Defined.

(** A modem that answers the dial command with CONNECT. *)
Lemma connect_then_disconnect_witness :
  exists m1 m2,
    connect example_check_for_errors 4242 false
      (example_dial_modem
         [("ATZ" ++ CRLF)%string; ("OK" ++ CRLF)%string;
          ("ATDT*99#" ++ CRLF)%string;
          ("CONNECT 7200000" ++ CRLF)%string]) = (Returns tt, m1) /\
    _pppd_pid m1 = Some 4242 /\
    m_syscalls m1 = [] ++ [Fork] /\
    disconnect m1 = (Returns tt, m2) /\
    m_syscalls m2 = [] ++ [Fork; Kill 4242 15] /\
    disconnect m2 = (Raises (HumodUsageError "Not connected."), m2) /\
    connect example_check_for_errors 4243 false m2 =
    (Raises PORT_ALREADY_OPEN, m2).
Proof.
  destruct (connect_then_disconnect example_check_for_errors 4241 false
              (example_dial_modem
                 [("ATZ" ++ CRLF)%string; ("OK" ++ CRLF)%string;
                  ("ATDT*99#" ++ CRLF)%string;
                  ("CONNECT 7200000" ++ CRLF)%string])
              ("ATZ" ++ CRLF)%string [] ("OK" ++ CRLF)%string
              ("ATDT*99#" ++ CRLF)%string ("CONNECT 7200000" ++ CRLF)%string [])
    as (m1 & m2 & Hc & Hpid & _ & _ & _ & Hsys & Hd & _ & _ & Hsys2 & Hd2
        & Hagain);
    try reflexivity; [constructor|].
  exists m1, m2. repeat split; try assumption. apply Hagain.
Defined.

(** A modem that answers the dial command with NO CARRIER: [connect]
    returns all the same, and the next [connect] finds the port open. *)
Lemma connect_without_carrier_witness :
  exists m1,
    connect example_check_for_errors 4242 false
      (example_dial_modem
         [("ATZ" ++ CRLF)%string; ("OK" ++ CRLF)%string;
          ("ATDT*99#" ++ CRLF)%string;
          ("NO CARRIER" ++ CRLF)%string]) = (Returns tt, m1) /\
    _pppd_pid m1 = None /\
    m_syscalls m1 = [] /\
    is_open (data_port m1) = true /\
    disconnect m1 = (Raises (HumodUsageError "Not connected."), m1) /\
    connect example_check_for_errors 4242 false m1 =
    (Raises PORT_ALREADY_OPEN, m1).
Proof.
  destruct (connect_without_carrier example_check_for_errors 4242 false
              (example_dial_modem
                 [("ATZ" ++ CRLF)%string; ("OK" ++ CRLF)%string;
                  ("ATDT*99#" ++ CRLF)%string;
                  ("NO CARRIER" ++ CRLF)%string])
              ("ATZ" ++ CRLF)%string [] ("OK" ++ CRLF)%string
              ("ATDT*99#" ++ CRLF)%string ("NO CARRIER" ++ CRLF)%string [])
    as (m1 & Hc & Hpid & Hsys & Hopen & _ & _ & Hd & Hagain);
    try reflexivity; [constructor|].
  exists m1. repeat split; try assumption. apply Hagain.
Defined.

(** A modem that answers ATZ with ERROR. *)
Lemma connect_aborts_before_dial_witness :
  exists m1,
    connect example_check_for_errors 4242 false
      (example_dial_modem
         [("ATZ" ++ CRLF)%string; ("ERROR" ++ CRLF)%string;
          ("RING" ++ CRLF)%string]) =
    (Raises (Exception "AtCommandError" "ERROR"), m1) /\
    tx (data_port m1) = [] ++ [("ATZ" ++ CR)%string] /\
    rx (data_port m1) = [("RING" ++ CRLF)%string] /\
    _pppd_pid m1 = None /\
    m_syscalls m1 = [].
Proof.
  apply (connect_aborts_before_dial example_check_for_errors 4242 false
           (example_dial_modem
              [("ATZ" ++ CRLF)%string; ("ERROR" ++ CRLF)%string;
               ("RING" ++ CRLF)%string])
           ("ATZ" ++ CRLF)%string [] ("ERROR" ++ CRLF)%string
           [("RING" ++ CRLF)%string]
           (Exception "AtCommandError" "ERROR"));
    try reflexivity.
  constructor.
Defined.

(** The pppd argument vector of the small modem, in the child. *)
Lemma connect_in_child_witness :
  exists m1,
    connect example_check_for_errors 0 false
      (example_dial_modem
         [("ATZ" ++ CRLF)%string; ("OK" ++ CRLF)%string;
          ("ATDT*99#" ++ CRLF)%string;
          ("CONNECT 7200000" ++ CRLF)%string]) = (NoReturn, m1) /\
    _pppd_pid m1 = None /\
    m_syscalls m1 =
    [] ++ [Fork;
           Execv PPPD_PATH
             ([PPPD_PATH; "7200000"%string; DEFAULT_DATA_PORT]
                ++ example_settings)].
Proof.
  apply (connect_in_child example_check_for_errors false
           (example_dial_modem
              [("ATZ" ++ CRLF)%string; ("OK" ++ CRLF)%string;
               ("ATDT*99#" ++ CRLF)%string;
               ("CONNECT 7200000" ++ CRLF)%string])
           ("ATZ" ++ CRLF)%string [] ("OK" ++ CRLF)%string
           ("ATDT*99#" ++ CRLF)%string ("CONNECT 7200000" ++ CRLF)%string []);
    try reflexivity.
  constructor.
Defined.

(** Two lines read and dispatched, one by the first rule and one by the
    default. *)
Lemma every_dispatch_fires_one_action_witness :
  exists s,
    example_run (repeat T_feeder 12 ++ repeat T_interp 6)
      (example_session [] ["RING"; "^BOOT:1"]%string) = Some s /\
    dispatched (trace s) = ["RING"; "^BOOT:1"]%string /\
    Forall one_action (trace s).
Proof.
  eexists. split; [vm_compute; reflexivity|].
  split; [vm_compute; reflexivity|].
  match goal with
  | |- Forall _ (trace ?s) =>
      apply (every_dispatch_fires_one_action _ _ _ example_search
               example_call ActNoMatch example_patterns []
               (example_ctrl_port ["RING"; "^BOOT:1"]%string) []
               (repeat T_feeder 12 ++ repeat T_interp 6) s)
  end.
  vm_compute; reflexivity.
Defined.

